(** * stsh: a shallow embedding of the job-control shell of [stsh.cc]

    The development follows the second (complete) version of [stsh.cc]:
    the builtin dispatcher, the three signal handlers, the pipeline
    launcher and the terminal hand-off.  The shell is sequential C++ that
    mutates one global job list and talks to the kernel, so every function
    is embedded in a small state monad over a [World]: the job list, the
    table of open descriptors, the signal mask, the log of system calls
    issued so far, and the answers the kernel will give to the calls that
    have one (fork, tcsetpgrp, execvp, the signals that arrive while the
    shell sits in sigsuspend).  A C++ exception, a failed assertion, exit,
    a successful exec and a sigsuspend that never returns all end the
    computation with the world as it was at that point. *)

From Stdlib Require Import ZArith List String Ascii Bool Lia DecimalString.
Import ListNotations.
Open Scope string_scope.
Open Scope list_scope.
Open Scope Z_scope.

(** ** Platform constants (Linux: <signal.h>, <sys/wait.h>, <errno.h>, <fcntl.h>) *)

Definition SIGINT  : Z := 2.
Definition SIGQUIT : Z := 3.
Definition SIGCHLD : Z := 17.
Definition SIGCONT : Z := 18.
Definition SIGTSTP : Z := 20.
Definition SIGTTIN : Z := 21.
Definition SIGTTOU : Z := 22.

Definition SIG_BLOCK   : Z := 0.
Definition SIG_UNBLOCK : Z := 1.

Definition WNOHANG    : Z := 1.
Definition WUNTRACED  : Z := 2.
Definition WCONTINUED : Z := 8.

Definition ENOTTY : Z := 25.

Definition O_RDONLY : Z := 0.
Definition O_CREAT  : Z := 64.
Definition O_TRUNC  : Z := 512.

Definition STDIN_FILENO  : Z := 0.
Definition STDOUT_FILENO : Z := 1.

(** [int] is 32 bits and [size_t]/[long] 64 bits on the target. *)
Definition wrap_int (z : Z) : Z := (z + 2^31) mod 2^32 - 2^31.
Definition to_size_t (z : Z) : Z := z mod 2^64.
Definition clamp_long (z : Z) : Z := Z.max (- 2^63) (Z.min (2^63 - 1) z).

(** The wait-status macros, as glibc's <bits/waitstatus.h> writes them. *)
Definition WTERMSIG (status : Z) : Z := Z.land status 127.
Definition WIFEXITED (status : Z) : bool := WTERMSIG status =? 0.
Definition WIFSIGNALED (status : Z) : bool :=
  (* ((signed char) ((status & 0x7f) + 1) >> 1) > 0 *)
  let c := Z.land status 127 + 1 in
  let sc := if 128 <=? c then c - 256 else c in
  0 <? Z.shiftr sc 1.
Definition WIFSTOPPED (status : Z) : bool := Z.land status 255 =? 127.
Definition WIFCONTINUED (status : Z) : bool := status =? 65535.

(** ** libc: atoi and std::to_string *)

Definition isspace (c : ascii) : bool :=
  let n := Z.of_nat (nat_of_ascii c) in
  (n =? 32) || ((9 <=? n) && (n <=? 13)).

Definition digit_of (c : ascii) : option Z :=
  let n := Z.of_nat (nat_of_ascii c) in
  if (48 <=? n) && (n <=? 57) then Some (n - 48) else None.

Fixpoint skip_spaces (s : string) : string :=
  match s with
  | String c rest => if isspace c then skip_spaces rest else s
  | EmptyString => s
  end.

Fixpoint digits_value (acc : Z) (s : string) : Z :=
  match s with
  | String c rest =>
      match digit_of c with
      | Some d => digits_value (10 * acc + d) rest
      | None => acc
      end
  | EmptyString => acc
  end.

(** strtol(s, NULL, 10): leading blanks, an optional sign, then the longest
    run of digits; the value saturates at the bounds of [long]. *)
Definition strtol10 (s : string) : Z :=
  match skip_spaces s with
  | String "-"%char rest => clamp_long (- digits_value 0 rest)
  | String "+"%char rest => clamp_long (digits_value 0 rest)
  | rest => clamp_long (digits_value 0 rest)
  end.

(** glibc: [atoi (s) = (int) strtol (s, NULL, 10)]. *)
Definition atoi (s : string) : Z := wrap_int (strtol10 s).

Definition to_string (z : Z) : string := NilZero.string_of_int (Z.to_int z).

(** ** The parsed pipeline (stsh-parse.h, consumed as it is) *)

Record command := mkCommand {
  cmd_name : string;          (* command.command *)
  tokens : list string        (* command.tokens, up to the first NULL *)
}.

Record pipeline := mkPipeline {
  commands : list command;
  input : string;
  output : string;
  background : bool
}.

(** [tokens[i]]: the i-th argument, NULL (here [None]) past the last. *)
Definition token (c : command) (i : nat) : option string := nth_error (tokens c) i.

(** ** Processes, jobs and the job list *)

Inductive STSHProcessState := kRunning | kStopped | kTerminated.
Inductive STSHJobState := kForeground | kBackground.

Definition pstate_eqb (a b : STSHProcessState) : bool :=
  match a, b with
  | kRunning, kRunning | kStopped, kStopped | kTerminated, kTerminated => true
  | _, _ => false
  end.

Definition jstate_eqb (a b : STSHJobState) : bool :=
  match a, b with
  | kForeground, kForeground | kBackground, kBackground => true
  | _, _ => false
  end.

Record STSHProcess := mkProcess {
  getID : Z;
  getCommand : command;
  getPState : STSHProcessState
}.

Record STSHJob := mkJob {
  getNum : Z;
  getState : STSHJobState;
  getProcesses : list STSHProcess
}.

(** The job list maps job ids to jobs; like the std::map it stands for it
    is kept in ascending order of id. *)
Definition STSHJobList := list STSHJob.

Module Process.
(** Modelled from the spec: the class STSHProcess of stsh-process.h is not
    part of the source at hand.  A process is created Running (section 8:
    a freshly launched job lists a Running process) and [setState]
    overwrites the run-state. *)
Definition create (pid : Z) (c : command) : STSHProcess := mkProcess pid c kRunning.

Definition setState (st : STSHProcessState) (p : STSHProcess) : STSHProcess :=
  mkProcess (getID p) (getCommand p) st.
End Process.

Module Job.
(** Modelled from the spec: the class STSHJob of stsh-job.h is not part of
    the source at hand.  A job is an ordered sequence of processes with a
    scheduling class; lookups by pid fail when the pid is absent. *)
Definition containsProcess (pid : Z) (j : STSHJob) : bool :=
  existsb (fun p => getID p =? pid) (getProcesses j).

Definition getProcess (pid : Z) (j : STSHJob) : option STSHProcess :=
  find (fun p => getID p =? pid) (getProcesses j).

Definition addProcess (p : STSHProcess) (j : STSHJob) : STSHJob :=
  mkJob (getNum j) (getState j) (getProcesses j ++ [p]).

Definition setState (st : STSHJobState) (j : STSHJob) : STSHJob :=
  mkJob (getNum j) st (getProcesses j).

(** [job.getProcess(pid).setState(st)]: the first process with that pid. *)
Fixpoint setProcessState_in (pid : Z) (st : STSHProcessState)
         (ps : list STSHProcess) : list STSHProcess :=
  match ps with
  | [] => []
  | p :: rest =>
      if getID p =? pid then Process.setState st p :: rest
      else p :: setProcessState_in pid st rest
  end.

Definition setProcessState (pid : Z) (st : STSHProcessState) (j : STSHJob) : STSHJob :=
  mkJob (getNum j) (getState j) (setProcessState_in pid st (getProcesses j)).

Definition allTerminated (j : STSHJob) : bool :=
  forallb (fun p => pstate_eqb (getPState p) kTerminated) (getProcesses j).

Definition anyRunning (j : STSHJob) : bool :=
  existsb (fun p => pstate_eqb (getPState p) kRunning) (getProcesses j).
End Job.

Module JobList.
(** Modelled from the spec: the class STSHJobList of stsh-job-list.h is not
    part of the source at hand.  Section 4.1 gives its operations: lookups
    that fail with NotFound when the target is absent, [addJob] that takes
    the smallest positive id not in use, and [synchronize] that removes a
    job whose processes are all Terminated and takes a job whose derived
    state is Stopped (no process Running) out of the foreground (section
    4.3, step 5: stopped means demoted but still present). *)
Definition containsJob (id : Z) (jl : STSHJobList) : bool :=
  existsb (fun j => getNum j =? id) jl.

Definition getJob (id : Z) (jl : STSHJobList) : option STSHJob :=
  find (fun j => getNum j =? id) jl.

Definition containsProcess (pid : Z) (jl : STSHJobList) : bool :=
  existsb (Job.containsProcess pid) jl.

Definition getJobWithProcess (pid : Z) (jl : STSHJobList) : option STSHJob :=
  find (Job.containsProcess pid) jl.

Definition isForeground (j : STSHJob) : bool := jstate_eqb (getState j) kForeground.

Definition hasForegroundJob (jl : STSHJobList) : bool := existsb isForeground jl.

Definition getForegroundJob (jl : STSHJobList) : option STSHJob := find isForeground jl.

(** Smallest positive integer that no job of the list carries. *)
Definition freshId (jl : STSHJobList) : Z :=
  let candidates := map Z.of_nat (seq 1 (S (List.length jl))) in
  match find (fun k => negb (containsJob k jl)) candidates with
  | Some k => k
  | None => Z.of_nat (S (List.length jl))
  end.

Fixpoint insertJob (j : STSHJob) (jl : STSHJobList) : STSHJobList :=
  match jl with
  | [] => [j]
  | k :: rest => if getNum j <? getNum k then j :: jl else k :: insertJob j rest
  end.

Definition addJob (st : STSHJobState) (jl : STSHJobList) : Z * STSHJobList :=
  let id := freshId jl in (id, insertJob (mkJob id st []) jl).

(** A [STSHJob&] is a reference into the list: writing through it updates
    the entry with that id in place. *)
Definition update (id : Z) (f : STSHJob -> STSHJob) (jl : STSHJobList) : STSHJobList :=
  map (fun j => if getNum j =? id then f j else j) jl.

Definition remove (id : Z) (jl : STSHJobList) : STSHJobList :=
  filter (fun j => negb (getNum j =? id)) jl.

Definition synchronize (id : Z) (jl : STSHJobList) : STSHJobList :=
  match getJob id jl with
  | None => jl
  | Some j =>
      if Job.allTerminated j then remove id jl
      else if isForeground j && negb (Job.anyRunning j)
           then update id (Job.setState kBackground) jl
           else jl
  end.

(** The number of jobs in the foreground; the invariant of the list is
    that it never exceeds one. *)
Definition foregroundCount (jl : STSHJobList) : nat := List.length (filter isForeground jl).
End JobList.

(** ** The world the shell runs in *)

Inductive Exception :=
| STSHException (what : string)   (* thrown by stsh.cc itself *)
| NotFound.                       (* thrown by a failed job-list lookup *)

(** System calls and output, in the order the shell issues them. *)
Inductive Event :=
| Kill (pid sig : Z)
| Sigprocmask (how : Z) (set : list Z)
| Sigsuspend (mask : list Z)
| Tcsetpgrp (fd pgid : Z)
| Waitpid (pid options : Z)
| Fork (answer : Z)
| Pipe (rd wr : Z)
| Open (path : string) (flags : Z) (fd : Z)
| Dup2 (oldfd newfd : Z)
| Close (fd : Z)
| Setpgid (pgid : Z)
| Execvp (argv : list string)
| Cout (text : string)
| CoutJobList (jl : STSHJobList)
| Cerr (e : Exception).

(** A signal that reaches the shell while it sits in sigsuspend.  A SIGCHLD
    comes with the answers waitpid gives during that run of the handler. *)
Inductive Delivery :=
| Chld (answers : list (Z * Z))
| Intr
| Tstp
| Quit.

Definition signo (d : Delivery) : Z :=
  match d with
  | Chld _ => SIGCHLD
  | Intr => SIGINT
  | Tstp => SIGTSTP
  | Quit => SIGQUIT
  end.

(** What the kernel will answer.  A script that has run out answers with
    the default named at the call. *)
Record Kernel := mkKernel {
  forks : list Z;                 (* fork: a child's pid, 0 in the child, -1 *)
  opens : list bool;              (* open: does it succeed *)
  execs : list bool;              (* execvp: does it succeed *)
  tcsetpgrps : list (Z * Z);      (* tcsetpgrp: return value and errno *)
  arrivals : list Delivery;       (* signals on their way to the shell *)
  shell_pgid : Z;                 (* getpgid(getpid()) *)
  garbage : Z                     (* what a read past the end of fds yields *)
}.

Record World := mkWorld {
  joblist : STSHJobList;          (* the global joblist *)
  fdtable : list Z;               (* descriptors open in this process *)
  sigmask : list Z;               (* signals blocked in this process *)
  in_child : bool;                (* getpid() != stshpid *)
  trace : list Event;             (* calls issued so far, oldest first *)
  kernel : Kernel
}.

(** Ways a computation ends other than by returning. *)
Inductive Stop :=
| Throw (e : Exception)
| AssertFail                      (* assert(...) failed: abort *)
| Exit (code : Z)
| Execed                          (* execvp succeeded: the image is replaced *)
| Blocked                         (* sigsuspend with no signal ever arriving *)
| Undefined.                      (* commands[0] of an empty pipeline *)

Inductive Outcome (A : Type) :=
| Done (a : A)
| Halt (s : Stop).
Arguments Done {A} a.
Arguments Halt {A} s.

Definition M (A : Type) : Type := World -> Outcome A * World.

Definition ret {A} (a : A) : M A := fun w => (Done a, w).

Definition bind {A B} (c : M A) (k : A -> M B) : M B :=
  fun w => match c w with
           | (Done a, w') => k a w'
           | (Halt s, w') => (Halt s, w')
           end.

Declare Scope stsh_scope.
Delimit Scope stsh_scope with stsh.
Notation "x <- c ;; k" := (bind c (fun x => k))
  (at level 61, c at next level, right associativity) : stsh_scope.
Notation "c ;; k" := (bind c (fun _ => k))
  (at level 61, right associativity) : stsh_scope.
Open Scope stsh_scope.

Definition halt {A} (s : Stop) : M A := fun w => (Halt s, w).
Definition throw {A} (what : string) : M A := halt (Throw (STSHException what)).

Definition gets {A} (f : World -> A) : M A := fun w => (Done (f w), w).

Definition set_joblist (jl : STSHJobList) (w : World) : World :=
  mkWorld jl (fdtable w) (sigmask w) (in_child w) (trace w) (kernel w).
Definition set_fdtable (t : list Z) (w : World) : World :=
  mkWorld (joblist w) t (sigmask w) (in_child w) (trace w) (kernel w).
Definition set_sigmask (m : list Z) (w : World) : World :=
  mkWorld (joblist w) (fdtable w) m (in_child w) (trace w) (kernel w).
Definition set_in_child (b : bool) (w : World) : World :=
  mkWorld (joblist w) (fdtable w) (sigmask w) b (trace w) (kernel w).
Definition set_trace (t : list Event) (w : World) : World :=
  mkWorld (joblist w) (fdtable w) (sigmask w) (in_child w) t (kernel w).
Definition set_kernel (k : Kernel) (w : World) : World :=
  mkWorld (joblist w) (fdtable w) (sigmask w) (in_child w) (trace w) k.

Definition set_forks (l : list Z) (k : Kernel) : Kernel :=
  mkKernel l (opens k) (execs k) (tcsetpgrps k) (arrivals k) (shell_pgid k) (garbage k).
Definition set_opens (l : list bool) (k : Kernel) : Kernel :=
  mkKernel (forks k) l (execs k) (tcsetpgrps k) (arrivals k) (shell_pgid k) (garbage k).
Definition set_execs (l : list bool) (k : Kernel) : Kernel :=
  mkKernel (forks k) (opens k) l (tcsetpgrps k) (arrivals k) (shell_pgid k) (garbage k).
Definition set_tcsetpgrps (l : list (Z * Z)) (k : Kernel) : Kernel :=
  mkKernel (forks k) (opens k) (execs k) l (arrivals k) (shell_pgid k) (garbage k).
Definition set_arrivals (l : list Delivery) (k : Kernel) : Kernel :=
  mkKernel (forks k) (opens k) (execs k) (tcsetpgrps k) l (shell_pgid k) (garbage k).

Definition modify (f : World -> World) : M unit := fun w => (Done tt, f w).

Definition emit (e : Event) : M unit := modify (fun w => set_trace (trace w ++ [e]) w).

(** Writing through the global [joblist]. *)
Definition update_joblist (f : STSHJobList -> STSHJobList) : M unit :=
  modify (fun w => set_joblist (f (joblist w)) w).

Fixpoint forM {A} (l : list A) (body : A -> M unit) : M unit :=
  match l with
  | [] => ret tt
  | a :: rest => body a ;; forM rest body
  end.

Fixpoint repeatM (n : nat) (body : M unit) : M unit :=
  match n with
  | O => ret tt
  | S k => body ;; repeatM k body
  end.

(** ** System calls *)

Definition mem (x : Z) (l : list Z) : bool := existsb (Z.eqb x) l.

Definition kill (pid sig : Z) : M unit := emit (Kill pid sig).

(** sigset_t as the list of its members, in the order sigaddset met them. *)
Definition sigemptyset : list Z := [].
Definition sigaddset (set : list Z) (sig : Z) : list Z :=
  if mem sig set then set else set ++ [sig].

(** sigprocmask(how, &set, &old): returns the mask that was in force. *)
Definition sigprocmask (how : Z) (set : list Z) : M (list Z) :=
  old <- gets sigmask ;;
  emit (Sigprocmask how set) ;;
  modify (set_sigmask
            (if how =? SIG_BLOCK
             then fold_left sigaddset set old
             else filter (fun s => negb (mem s set)) old)) ;;
  ret old.

(** The lowest descriptor that is not open. *)
Definition lowest_free (t : list Z) : Z :=
  match find (fun k => negb (mem k t)) (map Z.of_nat (seq 0 (S (List.length t)))) with
  | Some k => k
  | None => Z.of_nat (S (List.length t))
  end.

Definition pipe : M (Z * Z) :=
  t <- gets fdtable ;;
  let rd := lowest_free t in
  let wr := lowest_free (rd :: t) in
  modify (set_fdtable (t ++ [rd; wr])) ;;
  emit (Pipe rd wr) ;;
  ret (rd, wr).

(** open(path, flags, ...): the lowest free descriptor, or -1 when the kernel
    refuses; a script that has run out lets the call succeed. *)
Definition open (path : string) (flags : Z) : M Z :=
  k <- gets kernel ;;
  t <- gets fdtable ;;
  let ok := match opens k with [] => true | b :: _ => b end in
  modify (fun w => set_kernel (set_opens (tl (opens (kernel w))) (kernel w)) w) ;;
  if ok
  then (let fd := lowest_free t in
        modify (set_fdtable (t ++ [fd])) ;; emit (Open path flags fd) ;; ret fd)
  else (emit (Open path flags (-1)) ;; ret (-1)).

Definition dup2 (oldfd newfd : Z) : M unit :=
  t <- gets fdtable ;;
  emit (Dup2 oldfd newfd) ;;
  if mem oldfd t && negb (mem newfd t)
  then modify (set_fdtable (t ++ [newfd]))
  else ret tt.

Definition close (fd : Z) : M unit :=
  emit (Close fd) ;;
  modify (fun w => set_fdtable (filter (fun x => negb (x =? fd)) (fdtable w)) w).

(** fork: the next answer of the script, -1 (failure) once it has run out.
    An answer of 0 means that this process is the child from here on. *)
Definition fork : M Z :=
  k <- gets kernel ;;
  let pid := match forks k with [] => -1 | p :: _ => p end in
  modify (fun w => set_kernel (set_forks (tl (forks (kernel w))) (kernel w)) w) ;;
  emit (Fork pid) ;;
  (if pid =? 0 then modify (set_in_child true) else ret tt) ;;
  ret pid.

Definition setpgid_self (pgid : Z) : M unit := emit (Setpgid pgid).

(** execvp: replaces the process image, or returns -1; a script that has
    run out lets the call succeed. *)
Definition execvp (argv : list string) : M Z :=
  k <- gets kernel ;;
  let ok := match execs k with [] => true | b :: _ => b end in
  modify (fun w => set_kernel (set_execs (tl (execs (kernel w))) (kernel w)) w) ;;
  emit (Execvp argv) ;;
  if ok then halt Execed else ret (-1).

(** tcsetpgrp: (return value, errno); success once the script has run out. *)
Definition tcsetpgrp (fd pgid : Z) : M (Z * Z) :=
  k <- gets kernel ;;
  let ans := match tcsetpgrps k with [] => (0, 0) | a :: _ => a end in
  modify (fun w => set_kernel (set_tcsetpgrps (tl (tcsetpgrps (kernel w))) (kernel w)) w) ;;
  emit (Tcsetpgrp fd pgid) ;;
  ret ans.

(** ** stsh.cc: the terminal hand-off and the signal handlers *)

(** transferTerminalControl *)
Definition transferTerminalControl (pgid : Z) : M unit :=
  ans <- tcsetpgrp STDIN_FILENO pgid ;;
  let '(err, errno) := ans in
  if (err =? -1) && negb (errno =? ENOTTY)
  then throw "tcsetpgrp: A serious problem happens"
  else ret tt.

(** changeProcessStatus *)
Definition changeProcessStatus (pid : Z) (stat : STSHProcessState) : M unit :=
  jl <- gets joblist ;;
  match JobList.getJobWithProcess pid jl with
  | None => halt (Throw NotFound)
  | Some job =>
      if negb (Job.containsProcess pid job) then halt AssertFail
      else
        match Job.getProcess pid job with
        | None => halt (Throw NotFound)
        | Some _ =>
            update_joblist (JobList.update (getNum job) (Job.setProcessState pid stat)) ;;
            update_joblist (JobList.synchronize (getNum job))
        end
  end.

(** sigIntStopHandler *)
Definition sigIntStopHandler (sig : Z) : M unit :=
  jl <- gets joblist ;;
  if JobList.hasForegroundJob jl
  then match JobList.getForegroundJob jl with
       | None => halt (Throw NotFound)
       | Some job => forM (getProcesses job) (fun proc => kill (getID proc) sig)
       end
  else ret tt.

Definition reap_options : Z := Z.lor (Z.lor WNOHANG WUNTRACED) WCONTINUED.

Definition when (b : bool) (c : M unit) : M unit := if b then c else ret tt.

(** sigchildHandler.  [answers] are the (pid, status) pairs that the calls
    of waitpid return one after the other; once they have run out waitpid
    has nothing left to report and returns 0. *)
Fixpoint sigchildHandler (answers : list (Z * Z)) : M unit :=
  emit (Waitpid (-1) reap_options) ;;
  match answers with
  | [] => ret tt
  | (pid, status) :: rest =>
      if pid <=? 0 then ret tt
      else
        when (WIFEXITED status || WIFSIGNALED status) (changeProcessStatus pid kTerminated) ;;
        when (WIFSTOPPED status) (changeProcessStatus pid kStopped) ;;
        when (WIFCONTINUED status) (changeProcessStatus pid kRunning) ;;
        sigchildHandler rest
  end.

(** installSignalHandlers: what runs when a signal is delivered. *)
Definition deliver (d : Delivery) : M unit :=
  match d with
  | Chld answers => sigchildHandler answers
  | Intr => sigIntStopHandler SIGINT
  | Tstp => sigIntStopHandler SIGTSTP
  | Quit => halt (Exit 0)
  end.

(** The first pending signal that [mask] lets through, and what stays
    pending. *)
Fixpoint pick (mask : list Z) (ds : list Delivery) : option (Delivery * list Delivery) :=
  match ds with
  | [] => None
  | d :: rest =>
      if mem (signo d) mask
      then match pick mask rest with
           | Some (x, rest') => Some (x, d :: rest')
           | None => None
           end
      else Some (d, rest)
  end.

(** sigsuspend(&mask): sleeps until a signal that [mask] lets through has
    been handled; the handler runs before the call returns. *)
Definition sigsuspend (mask : list Z) : M unit :=
  emit (Sigsuspend mask) ;;
  k <- gets kernel ;;
  match pick mask (arrivals k) with
  | None => halt Blocked
  | Some (d, rest) =>
      modify (fun w => set_kernel (set_arrivals rest (kernel w)) w) ;;
      deliver d
  end.

(** [while (cond) sigsuspend(&mask);] Every round consumes one pending
    signal, so one more round than there are signals pending is enough. *)
Fixpoint wait_rounds (cond : STSHJobList -> bool) (mask : list Z) (rounds : nat) : M unit :=
  jl <- gets joblist ;;
  if cond jl
  then match rounds with
       | O => halt Blocked
       | S n => sigsuspend mask ;; wait_rounds cond mask n
       end
  else ret tt.

Definition wait_while (cond : STSHJobList -> bool) (mask : list Z) : M unit :=
  k <- gets kernel ;;
  wait_rounds cond mask (S (List.length (arrivals k))).

(** ** stsh.cc: builtins *)

(** [pipeline.commands[0]] *)
Definition first_command (p : pipeline) : M command :=
  match commands p with
  | [] => halt Undefined
  | c :: _ => ret c
  end.

Definition endl : string := String (ascii_of_nat 10) EmptyString.

Definition fg_additions : list Z :=
  sigaddset (sigaddset (sigaddset (sigaddset sigemptyset SIGINT) SIGTSTP) SIGCONT) SIGCHLD.

(** builtinFg *)
Definition builtinFg (p : pipeline) : M unit :=
  c <- first_command p ;;
  match token c 0 with
  | None => throw "Usage: fg <jobid>."
  | Some arg =>
      if String.eqb arg "0" then throw "fg 0: No such job."
      else
        let jobid := atoi arg in
        if jobid =? 0 then throw "Usage: fg <jobid>."
        else
          jl <- gets joblist ;;
          if negb (JobList.containsJob (to_size_t jobid) jl)
          then emit (Cout ("jobid: " ++ to_string jobid ++ endl)) ;;
               throw ("fg " ++ to_string jobid ++ ": No such job.")
          else
            existingmask <- sigprocmask SIG_BLOCK fg_additions ;;
            match JobList.getJob (to_size_t jobid) jl with
            | None => halt (Throw NotFound)
            | Some job =>
                let processes := getProcesses job in
                (if JobList.isForeground job
                 then forM processes (fun proc => kill (getID proc) SIGCONT)
                 else match processes with
                      | [] => ret tt
                      | first :: _ =>
                          update_joblist (JobList.update (getNum job) (Job.setState kForeground)) ;;
                          let gid := getID first in
                          kill (- gid) SIGCONT
                      end) ;;
                wait_while JobList.hasForegroundJob existingmask ;;
                sigprocmask SIG_UNBLOCK fg_additions ;;
                ret tt
            end
  end.

(** builtinBg *)
Definition builtinBg (p : pipeline) : M unit :=
  c <- first_command p ;;
  match token c 0 with
  | None => throw "Usage: bg <jobid>."
  | Some arg =>
      if String.eqb arg "0" then throw "fg 0: No such job."
      else
        let jobid := atoi arg in
        if jobid =? 0 then throw "Usage: fg <jobid>."
        else
          jl <- gets joblist ;;
          if negb (JobList.containsJob (to_size_t jobid) jl)
          then emit (Cout ("jobid: " ++ to_string jobid ++ endl)) ;;
               throw ("fg " ++ to_string jobid ++ ": No such job.")
          else
            match JobList.getJob (to_size_t jobid) jl with
            | None => halt (Throw NotFound)
            | Some job => forM (getProcesses job) (fun proc => kill (getID proc) SIGCONT)
            end
  end.

(** builtinSignals *)
Definition builtinSignals (p : pipeline) (cmdName : string) (sig : Z) : M unit :=
  c <- first_command p ;;
  match token c 0 with
  | None => throw ("Usage: " ++ cmdName ++ " <jobid> <index> | <pid>.")
  | Some arg1 =>
      let arg1_int := atoi arg1 in
      match token c 1 with
      | None =>
          jl <- gets joblist ;;
          if negb (JobList.containsProcess arg1_int jl)
          then throw ("No process with pid " ++ to_string arg1_int)
          else kill arg1_int sig
      | Some arg2 =>
          let arg2_int := atoi arg2 in
          jl <- gets joblist ;;
          if negb (JobList.containsJob (to_size_t arg1_int) jl)
          then throw ("No job with id " ++ to_string arg1_int)
          else
            match JobList.getJob (to_size_t arg1_int) jl with
            | None => halt (Throw NotFound)
            | Some job =>
                let processes := getProcesses job in
                if Z.of_nat (List.length processes) <=? to_size_t arg2_int
                then throw ("Job " ++ to_string arg1_int ++ "doesn't have a pid at index "
                                   ++ to_string arg2_int)
                else
                  match nth_error processes (Z.to_nat (to_size_t arg2_int)) with
                  | None => halt Undefined
                  | Some proc =>
                      if negb (Job.containsProcess (getID proc) job)
                      then throw ("Job " ++ to_string arg1_int ++ "doesn't have a pid at index "
                                         ++ to_string arg2_int)
                      else kill (getID proc) sig
                  end
            end
      end
  end.

Definition kSupportedBuiltins : list string :=
  ["quit"; "exit"; "fg"; "bg"; "slay"; "halt"; "cont"; "jobs"].

(** std::find over kSupportedBuiltins: the index of the first match. *)
Fixpoint find_index (names : list string) (name : string) (i : nat) : option nat :=
  match names with
  | [] => None
  | n :: rest => if String.eqb n name then Some i else find_index rest name (S i)
  end.

(** handleBuiltin *)
Definition handleBuiltin (p : pipeline) : M bool :=
  c <- first_command p ;;
  match find_index kSupportedBuiltins (cmd_name c) 0 with
  | None => ret false
  | Some index =>
      (match index with
       | 0%nat | 1%nat => halt (Exit 0)
       | 2%nat => builtinFg p
       | 3%nat => builtinBg p
       | 4%nat => builtinSignals p "slay" SIGINT
       | 5%nat => builtinSignals p "halt" SIGTSTP
       | 6%nat => builtinSignals p "cont" SIGCONT
       | 7%nat => jl <- gets joblist ;; emit (CoutJobList jl)
       | _ => throw "Internal Error: Builtin command not supported."
       end) ;;
      ret true
  end.

(** ** stsh.cc: the pipeline launcher *)

(** Modelled from the spec: the constant kMaxArguments of stsh-parse.h is
    not part of the source at hand; section 6 only says that the argument
    list is bounded by a fixed maximum. *)
Definition kMaxArguments : nat := 32.

(** [fds[i][0]] and [fds[i][1]]; a row past the end of the array reads
    whatever the stack holds there. *)
Definition fds_rd (fds : list (Z * Z)) (i : nat) : M Z :=
  match nth_error fds i with
  | Some (rd, _) => ret rd
  | None => gets (fun w => garbage (kernel w))
  end.

Definition fds_wr (fds : list (Z * Z)) (i : nat) : M Z :=
  match nth_error fds i with
  | Some (_, wr) => ret wr
  | None => gets (fun w => garbage (kernel w))
  end.

Definition close_rd (fds : list (Z * Z)) (i : nat) : M unit := fd <- fds_rd fds i ;; close fd.
Definition close_wr (fds : list (Z * Z)) (i : nat) : M unit := fd <- fds_wr fds i ;; close fd.

(** [for (i = 0; i < p.commands.size() - 1; i++) pipe(fds[i]);] *)
Fixpoint make_pipes (n : nat) : M (list (Z * Z)) :=
  match n with
  | O => ret []
  | S k => ends <- pipe ;; rest <- make_pipes k ;; ret (ends :: rest)
  end.

Definition createJob_additions : list Z :=
  sigaddset (sigaddset (sigaddset (sigaddset (sigaddset sigemptyset SIGCHLD) SIGCHLD)
                                  SIGINT) SIGTSTP) SIGCONT.

(** The body of [if (pid == 0) { ... }]: what child number [i] does between
    fork and exec.  The bound of the cleanup loop is written
    [t.commands.size() - 1] with [t] the loop counter; it is read as
    [p.commands.size() - 1], the only pipeline in scope.  The loop runs once
    per pipe but closes the descriptors of row [i] each time. *)
Definition child_body (p : pipeline) (fds : list (Z * Z)) (inputfd outputfd : Z)
           (i : nat) (groupid : Z) (c : command) : M unit :=
  let n := List.length (commands p) in
  (if (i =? 0)%nat && (0 <=? inputfd)
   then dup2 inputfd STDIN_FILENO ;; close inputfd
   else if (0 <? i)%nat
        then fd <- fds_rd fds (i - 1) ;; dup2 fd STDIN_FILENO ;; close fd
        else ret tt) ;;
  (if (i =? n - 1)%nat && (0 <=? outputfd)
   then dup2 outputfd STDOUT_FILENO ;; close outputfd
   else if negb (i =? n - 1)%nat
        then fd <- fds_wr fds i ;; dup2 fd STDOUT_FILENO ;; close fd
        else ret tt) ;;
  repeatM (n - 1) (close_rd fds i ;; close_wr fds i) ;;
  setpgid_self groupid ;;
  let argv := cmd_name c :: firstn (S kMaxArguments) (tokens c) in
  err <- execvp argv ;;
  if err <? 0 then throw ("./" ++ cmd_name c ++ ": command not found") else ret tt.

(** [for (i = 0; i < p.commands.size(); i++) { fork ... }]; returns the
    group id, the pid that the first fork answered. *)
Fixpoint fork_all (p : pipeline) (job : Z) (fds : list (Z * Z)) (inputfd outputfd : Z)
         (cmds : list command) (i : nat) (groupid : Z) : M Z :=
  match cmds with
  | [] => ret groupid
  | c :: rest =>
      pid <- fork ;;
      let groupid := if (i =? 0)%nat then pid else groupid in
      update_joblist (JobList.update job (Job.addProcess (Process.create pid c))) ;;
      when (pid =? 0) (child_body p fds inputfd outputfd i groupid c) ;;
      fork_all p job fds inputfd outputfd rest (S i) groupid
  end.

(** createJob.  The parent's cleanup reads an index [i] that no enclosing
    scope declares; [stale_i] is the value it is read as.  Only the first
    of its two closes is inside the loop. *)
Definition createJob (stale_i : nat) (p : pipeline) : M unit :=
  match commands p with
  | [] => halt Undefined
  | _ :: _ =>
      let n := List.length (commands p) in
      jl <- gets joblist ;;
      let '(job, jl') := JobList.addJob (if background p then kBackground else kForeground) jl in
      update_joblist (fun _ => jl') ;;
      fds <- make_pipes (n - 1) ;;
      inputfd <- (if String.eqb (input p) "" then ret (-1) else open (input p) O_RDONLY) ;;
      outputfd <- (if String.eqb (output p) "" then ret (-1)
                   else open (output p) (Z.lor O_CREAT O_TRUNC)) ;;
      groupid <- fork_all p job fds inputfd outputfd (commands p) 0 0 ;;
      repeatM (n - 1) (close_rd fds stale_i) ;;
      close_wr fds stale_i ;;
      (if negb (background p)
       then
         existingmask <- sigprocmask SIG_BLOCK createJob_additions ;;
         jl <- gets joblist ;;
         when (JobList.hasForegroundJob jl) (transferTerminalControl groupid) ;;
         wait_while (fun jl => JobList.hasForegroundJob jl &&
                               match JobList.getForegroundJob jl with
                               | Some fg => getNum fg =? job
                               | None => false
                               end) existingmask ;;
         sigprocmask SIG_UNBLOCK createJob_additions ;;
         ret tt
       else
         jl <- gets joblist ;;
         emit (Cout ("[" ++ to_string job ++ "] ")) ;;
         match JobList.getJob job jl with
         | None => halt Undefined
         | Some j =>
             forM (getProcesses j) (fun proc => emit (Cout (to_string (getID proc) ++ " ")))
         end ;;
         emit (Cout endl)) ;;
      pgid <- gets (fun w => shell_pgid (kernel w)) ;;
      transferTerminalControl pgid
  end.

(** What reaches the shell while it sits at the prompt: a parsed line, or
    a signal. *)
Inductive PromptEvent :=
| Line (p : pipeline)
| Signal (d : Delivery).

(** One round of the loop of main on an already parsed line: the builtin
    or the launcher, with the handler of [catch (const STSHException&)]. *)
Definition main_step (stale_i : nat) (p : pipeline) : M unit :=
  fun w =>
    match (builtin <- handleBuiltin p ;; when (negb builtin) (createJob stale_i p)) w with
    | (Halt (Throw e), w') =>
        (emit (Cerr e) ;; if in_child w' then halt (Exit 0) else ret tt) w'
    | r => r
    end.

(** A signal at the prompt runs its handler at once unless it is blocked;
    a blocked signal stays pending.  Nothing catches what a handler throws
    there. *)
Definition prompt_signal (d : Delivery) : M unit :=
  mask <- gets sigmask ;;
  if mem (signo d) mask
  then modify (fun w => set_kernel (set_arrivals (arrivals (kernel w) ++ [d]) (kernel w)) w)
  else deliver d.

Fixpoint main_loop (stale_i : nat) (evs : list PromptEvent) : M unit :=
  match evs with
  | [] => ret tt
  | Line p :: rest => main_step stale_i p ;; main_loop stale_i rest
  | Signal d :: rest => prompt_signal d ;; main_loop stale_i rest
  end.

(** * Vocabulary of the properties

    The notions the statements below are written in, and the worlds they
    are tried on. *)

(** [log evs w]: the world [w] after the calls [evs] have been issued. *)
Definition log (evs : list Event) (w : World) : World := set_trace (trace w ++ evs) w.

(** [respects R c]: whatever world [c] starts in, the world it ends in is
    related to it by [R], also when [c] does not return. *)
Definition respects (R : World -> World -> Prop) {A} (c : M A) : Prop :=
  forall w, R w (snd (c w)).

Definition same_kernel (w w' : World) : Prop := kernel w' = kernel w.

(** The signals still on their way to the shell. *)
Definition pending (w : World) : nat := List.length (arrivals (kernel w)).

(** The answer the next call of tcsetpgrp gets. *)
Definition tc_answer (w : World) : Z * Z :=
  match tcsetpgrps (kernel w) with
  | [] => (0, 0)
  | a :: _ => a
  end.

Definition tc_consumed (w : World) : World :=
  set_kernel (set_tcsetpgrps (tl (tcsetpgrps (kernel w))) (kernel w)) w.

Definition kernel0 : Kernel := mkKernel [] [] [] [] [] 50 (-7).
Definition world0 : World := mkWorld [] [0; 1; 2] [] false [] kernel0.

Definition with_tcsetpgrps (l : list (Z * Z)) (w : World) : World :=
  set_kernel (set_tcsetpgrps l (kernel w)) w.

Definition sleep_cmd : command := mkCommand "sleep" ["100"].
Definition cat_cmd : command := mkCommand "cat" [].

(** A foreground pipeline of two processes, 100 and 101, in group 100. *)
Definition world_fg_pair : World :=
  set_joblist [mkJob 1 kForeground [mkProcess 100 cat_cmd kRunning;
                                    mkProcess 101 sleep_cmd kRunning]] world0.

(** Job 1, in the background, with the stopped processes 100 and 101. *)
Definition stopped_pair : STSHJob :=
  mkJob 1 kBackground [mkProcess 100 cat_cmd kStopped; mkProcess 101 sleep_cmd kStopped].

Definition world_bg_stopped : World := set_joblist [stopped_pair] world0.

Definition line (name : string) (args : list string) : pipeline :=
  mkPipeline [mkCommand name args] "" "" false.

(** A pid is tracked when some process of some job of the list carries it. *)
Definition tracked (pid : Z) (jl : STSHJobList) : Prop :=
  exists job proc, In job jl /\ In proc (getProcesses job) /\ getID proc = pid.

(** The builtins that send a signal, with the signal each one stands for. *)
Definition signal_builtins : list (string * Z) :=
  [("slay", SIGINT); ("halt", SIGTSTP); ("cont", SIGCONT)].

(** Does the text [hay] contain the word [needle]? *)
Definition mentions (needle hay : string) : bool :=
  match index 0 needle hay with
  | Some _ => true
  | None => false
  end.

(** The state a wait status stands for, in the words of the design: a
    normal or signaled exit is Terminated, a stop is Stopped, a continue is
    Running. *)
Definition transition (status : Z) : option STSHProcessState :=
  if WIFEXITED status || WIFSIGNALED status then Some kTerminated
  else if WIFSTOPPED status then Some kStopped
  else if WIFCONTINUED status then Some kRunning
  else None.

(** What one reaped (pid, state) does to the job list when [job] owns the
    pid: the state is written into the process, then the job is
    synchronized. *)
Definition apply_transition (pid : Z) (st : STSHProcessState) (job : STSHJob)
           (jl : STSHJobList) : STSHJobList :=
  JobList.synchronize (getNum job)
    (JobList.update (getNum job) (Job.setProcessState pid st) jl).

(** The reaper in the words of section 4.2: go through the statuses until
    one comes with pid <= 0; for each reaped pid apply the transition of
    its status to the owning process and synchronize its job; a pid that
    no job owns is dropped. *)
Fixpoint reap_spec (answers : list (Z * Z)) (jl : STSHJobList) : STSHJobList :=
  match answers with
  | [] => jl
  | (pid, status) :: rest =>
      if pid <=? 0 then jl
      else match transition status, JobList.getJobWithProcess pid jl with
           | Some st, Some job => reap_spec rest (apply_transition pid st job jl)
           | _, _ => reap_spec rest jl
           end
  end.

(** Every pid reaped with a transition is owned by a job at the time it
    is reaped. *)
Fixpoint owners_known (answers : list (Z * Z)) (jl : STSHJobList) : bool :=
  match answers with
  | [] => true
  | (pid, status) :: rest =>
      if pid <=? 0 then true
      else match transition status, JobList.getJobWithProcess pid jl with
           | Some st, Some job => owners_known rest (apply_transition pid st job jl)
           | Some _, None => false
           | None, _ => owners_known rest jl
           end
  end.

(** The number of calls of waitpid: one per reaped pid and the last one,
    which reports nothing. *)
Fixpoint waits (answers : list (Z * Z)) : nat :=
  match answers with
  | [] => 1
  | (pid, _) :: rest => if pid <=? 0 then 1%nat else S (waits rest)
  end.

(** 101 is killed by signal 9, 100 is stopped by signal 19, continued, and
    exits; the next call of waitpid returns 0. *)
Definition pair_life : list (Z * Z) := [(101, 9); (100, 4991); (100, 65535); (100, 0); (0, 0)].

Definition with_arrivals (l : list Delivery) (w : World) : World :=
  set_kernel (set_arrivals l (kernel w)) w.

Definition is_tcsetpgrp (e : Event) : bool :=
  match e with
  | Tcsetpgrp _ _ => true
  | _ => false
  end.

(** Job 1 sits stopped in the background; after fg 1 both processes are
    reported continued, then both exit. *)
Definition world_fg_resume : World :=
  with_arrivals [Chld [(100, 65535); (101, 65535)]; Chld [(100, 0); (101, 0)]]
                world_bg_stopped.

(** The log has only grown, and by no call of tcsetpgrp. *)
Definition no_tcsetpgrp (w w' : World) : Prop :=
  exists evs, trace w' = trace w ++ evs /\ existsb is_tcsetpgrp evs = false.

Definition foreground_not_grown (w w' : World) : Prop :=
  (JobList.foregroundCount (joblist w') <= JobList.foregroundCount (joblist w))%nat.

(** The forks answer 100 and 101; the kernel refuses the first tcsetpgrp
    with EPERM (errno 1). *)
Definition world_tcsetpgrp_refused : World :=
  set_kernel (mkKernel [100; 101] [] [] [(-1, 1)] [] 50 (-7)) world0.

(** sleep 200 & *)
Definition sleep_in_background : pipeline :=
  mkPipeline [mkCommand "sleep" ["200"]] "" "" true.

(** a < in.txt | b | c > out.txt & *)
Definition three_stage : pipeline :=
  mkPipeline [mkCommand "a" []; mkCommand "b" []; mkCommand "c" []] "in.txt" "out.txt" true.

Definition with_forks (l : list Z) (w : World) : World :=
  set_kernel (set_forks l (kernel w)) w.


(** [e] is a kill of [sig] on a process of a Foreground job of [jl]. *)
Definition foreground_kill (sig : Z) (jl : STSHJobList) (e : Event) : Prop :=
  exists job proc,
    In job jl /\ getState job = kForeground /\ In proc (getProcesses job)
    /\ e = Kill (getID proc) sig.

(** What a run of a signal handler may change: run states and scheduling
    classes, and the log.  Descriptors, signal mask and kernel stay as they
    were, and every job of the list afterwards was in the list before, under
    the same id and with the same processes (pids and commands, in order). *)
Definition same_processes (j j' : STSHJob) : Prop :=
  getNum j' = getNum j
  /\ map getID (getProcesses j') = map getID (getProcesses j)
  /\ map getCommand (getProcesses j') = map getCommand (getProcesses j).

Definition only_states_change (w w' : World) : Prop :=
  fdtable w' = fdtable w /\ sigmask w' = sigmask w /\ in_child w' = in_child w
  /\ kernel w' = kernel w
  /\ forall j', In j' (joblist w') -> exists j, In j (joblist w) /\ same_processes j j'.

Definition same_sigmask (w w' : World) : Prop := sigmask w' = sigmask w.

(** The mask that SIG_UNBLOCK of [set] leaves of [mask]. *)
Definition unblocked (set mask : list Z) : list Z :=
  filter (fun s => negb (mem s set)) mask.

(** The calls of the launcher that create and wire processes and print;
    the calls that block, wait or signal are not among them. *)
Definition launch_event (e : Event) : bool :=
  match e with
  | Pipe _ _ | Open _ _ _ | Dup2 _ _ | Close _ | Fork _ | Setpgid _ | Execvp _
  | Cout _ | Tcsetpgrp _ _ => true
  | _ => false
  end.

(** The calls of the wait for a foreground job and of the handlers that run
    during it. *)
Definition wait_event (e : Event) : bool :=
  match e with
  | Sigprocmask _ _ | Sigsuspend _ | Waitpid _ _ | Kill _ _ => true
  | _ => false
  end.

(** The signal mask is as it was and the log has grown by launch events
    only. *)
Definition launches_only (w w' : World) : Prop :=
  sigmask w' = sigmask w
  /\ exists evs, trace w' = trace w ++ evs /\ forallb launch_event evs = true.

Definition same_shell_pgid (w w' : World) : Prop :=
  shell_pgid (kernel w') = shell_pgid (kernel w).

(** [returns R c]: [c] always returns, in a world related by [R] to the one
    it started in. *)
Definition returns (R : World -> World -> Prop) {A} (c : M A) : Prop :=
  forall w, exists a w', c w = (Done a, w') /\ R w w'.

(** What creating pipes, opening files and wiring descriptors leave as it
    was: the job list, the side of the fork this process is on, and the
    answers fork and execvp are still to get. *)
Definition wiring_frame (w w' : World) : Prop :=
  joblist w' = joblist w /\ in_child w' = in_child w
  /\ forks (kernel w') = forks (kernel w) /\ execs (kernel w') = execs (kernel w).

(** The diagnostic of a child whose execvp failed. *)
Definition command_not_found (c : command) : Exception :=
  STSHException ("./" ++ cmd_name c ++ ": command not found").

(** How a process that fork answered 0 to ends in createJob: as the new
    program, or with the diagnostic of one of the commands. *)
Definition child_end (cmds : list command) (s : Stop) : Prop :=
  s = Execed \/ exists c, In c cmds /\ s = Throw (command_not_found c).

(** The processes a launch registers: one per command, in pipeline order,
    each with the pid that fork returned for it, all Running. *)
Definition registered (pids : list Z) (cmds : list command) : list STSHProcess :=
  map (fun pc => Process.create (fst pc) (snd pc)) (combine pids cmds).

Definition addProcesses (ps : list STSHProcess) (j : STSHJob) : STSHJob :=
  mkJob (getNum j) (getState j) (getProcesses j ++ ps).

Definition same_joblist (w w' : World) : Prop := joblist w' = joblist w.

(** Nothing has changed but the log, which has grown. *)
Definition only_logged (w w' : World) : Prop := exists evs, w' = log evs w.

(** The builtins that act on jobs without waiting for them. *)
Definition signalling_builtins : list string := ["bg"; "slay"; "halt"; "cont"; "jobs"].

(** * Properties *)

(** ** The log of system calls *)

Lemma log_nil w : log [] w = w.
Proof. destruct w; unfold log, set_trace; simpl; now rewrite app_nil_r. Qed.

Lemma log_log a b w : log b (log a w) = log (a ++ b) w.
Proof. unfold log, set_trace; simpl; now rewrite app_assoc. Qed.

Lemma emit_log e w : emit e w = (Done tt, log [e] w).
Proof. reflexivity. Qed.

Lemma joblist_log evs w : joblist (log evs w) = joblist w.
Proof. reflexivity. Qed.

Lemma kernel_log evs w : kernel (log evs w) = kernel w.
Proof. reflexivity. Qed.

Lemma bind_done {A B} (c : M A) (k : A -> M B) w a w' :
  c w = (Done a, w') -> bind c k w = k a w'.
Proof. unfold bind; now intros ->. Qed.

Lemma bind_halt {A B} (c : M A) (k : A -> M B) w s w' :
  c w = (Halt s, w') -> bind c k w = (Halt s, w').
Proof. unfold bind; now intros ->. Qed.

(** A loop that only sends a signal to every process of a list. *)
Lemma forM_kill (pid_of : STSHProcess -> Z) sig ps w :
  forM ps (fun proc => kill (pid_of proc) sig) w
  = (Done tt, log (map (fun proc => Kill (pid_of proc) sig) ps) w).
Proof.
  revert w; induction ps as [|proc ps IH]; intro w; simpl.
  - now rewrite log_nil.
  - unfold bind, kill at 1. rewrite emit_log, IH, log_log. reflexivity.
Qed.

(** ** What a computation leaves alone *)

Section Respects.
Variable R : World -> World -> Prop.
Hypothesis R_refl : forall w, R w w.
Hypothesis R_trans : forall a b c, R a b -> R b c -> R a c.

Lemma respects_ret {A} (a : A) : respects R (ret a).
Proof. intro w. apply R_refl. Qed.

Lemma respects_halt {A} s : respects R (@halt A s).
Proof. intro w. apply R_refl. Qed.

Lemma respects_gets {A} (f : World -> A) : respects R (gets f).
Proof. intro w. apply R_refl. Qed.

Lemma respects_modify f : (forall w, R w (f w)) -> respects R (modify f).
Proof. intros H w. apply H. Qed.

Lemma respects_bind {A B} (c : M A) (k : A -> M B) :
  respects R c -> (forall a, respects R (k a)) -> respects R (bind c k).
Proof.
  intros Hc Hk w. unfold bind. specialize (Hc w).
  destruct (c w) as [[a|s] w']; simpl in *; [|assumption].
  eapply R_trans; [eassumption | apply Hk].
Qed.

Lemma respects_when b c : respects R c -> respects R (when b c).
Proof. intro H. destruct b; [assumption | apply respects_ret]. Qed.

Lemma respects_forM {A} (l : list A) body :
  (forall a, respects R (body a)) -> respects R (forM l body).
Proof.
  intro H. induction l as [|a l IH]; simpl.
  - apply respects_ret.
  - apply respects_bind; [apply H | intros _; apply IH].
Qed.

(** The handlers, given that [R] lets a process change state, a job be
    synchronized and the log grow by the calls a handler makes. *)
Hypothesis R_setProcessState : forall id pid st w,
  R w (set_joblist (JobList.update id (Job.setProcessState pid st) (joblist w)) w).
Hypothesis R_synchronize : forall id w,
  R w (set_joblist (JobList.synchronize id (joblist w)) w).
Hypothesis R_kill : forall pid sig w, R w (log [Kill pid sig] w).
Hypothesis R_waitpid : forall w, R w (log [Waitpid (-1) reap_options] w).

Lemma respects_changeProcessStatus pid st : respects R (changeProcessStatus pid st).
Proof.
  unfold changeProcessStatus. apply respects_bind; [apply respects_gets|]. intro jl.
  destruct (JobList.getJobWithProcess pid jl) as [job|]; [|apply respects_halt].
  destruct (negb (Job.containsProcess pid job)); [apply respects_halt|].
  destruct (Job.getProcess pid job); [|apply respects_halt].
  apply respects_bind; [|intros _]; apply respects_modify; intro w.
  - apply R_setProcessState.
  - apply R_synchronize.
Qed.

Lemma respects_sigIntStopHandler sig : respects R (sigIntStopHandler sig).
Proof.
  unfold sigIntStopHandler. apply respects_bind; [apply respects_gets|]. intro jl.
  destruct (JobList.hasForegroundJob jl); [|apply respects_ret].
  destruct (JobList.getForegroundJob jl) as [job|]; [|apply respects_halt].
  apply respects_forM. intros proc w. apply R_kill.
Qed.

Lemma respects_sigchildHandler answers : respects R (sigchildHandler answers).
Proof.
  induction answers as [|[pid status] rest IH]; cbn [sigchildHandler];
    (apply respects_bind; [intro w; apply R_waitpid | intros _]).
  - apply respects_ret.
  - destruct (pid <=? 0); [apply respects_ret|].
    repeat (apply respects_bind;
            [apply respects_when, respects_changeProcessStatus | intros _]).
    exact IH.
Qed.

Lemma respects_deliver d : respects R (deliver d).
Proof.
  destruct d; simpl.
  - apply respects_sigchildHandler.
  - apply respects_sigIntStopHandler.
  - apply respects_sigIntStopHandler.
  - apply respects_halt.
Qed.

(** The wait loop, given that [R] also lets the shell go to sleep and a
    pending signal be taken from the kernel. *)
Hypothesis R_sigsuspend : forall mask w, R w (log [Sigsuspend mask] w).
Hypothesis R_arrivals : forall l w, R w (set_kernel (set_arrivals l (kernel w)) w).

Lemma respects_sigsuspend mask : respects R (sigsuspend mask).
Proof.
  unfold sigsuspend.
  apply respects_bind; [intro w; apply R_sigsuspend | intros _].
  apply respects_bind; [apply respects_gets | intro k].
  destruct (pick mask (arrivals k)) as [[d rest]|]; [|apply respects_halt].
  apply respects_bind; [|intros _; apply respects_deliver].
  apply respects_modify. intro w. apply R_arrivals.
Qed.

Lemma respects_wait_rounds cond mask rounds : respects R (wait_rounds cond mask rounds).
Proof.
  induction rounds as [|n IH]; cbn [wait_rounds];
    (apply respects_bind; [apply respects_gets | intro jl]);
    (destruct (cond jl); [|apply respects_ret]).
  - apply respects_halt.
  - apply respects_bind; [apply respects_sigsuspend | intros _; exact IH].
Qed.

Lemma respects_wait_while cond mask : respects R (wait_while cond mask).
Proof.
  unfold wait_while. apply respects_bind; [apply respects_gets | intro k].
  apply respects_wait_rounds.
Qed.
End Respects.

(** ** The wait loop has rounds enough *)

Lemma deliver_same_kernel d : respects same_kernel (deliver d).
Proof.
  apply respects_deliver; unfold same_kernel; try reflexivity.
  intros a b c H1 H2. congruence.
Qed.

Lemma pick_shorter mask ds d rest :
  pick mask ds = Some (d, rest) -> S (List.length rest) = List.length ds.
Proof.
  revert d rest. induction ds as [|x ds IH]; intros d rest; simpl; [discriminate|].
  destruct (mem (signo x) mask).
  - destruct (pick mask ds) as [[y rest']|] eqn:E; [|discriminate].
    intro H. inversion H; subst. simpl. f_equal. exact (IH _ _ eq_refl).
  - intro H. inversion H; subst. reflexivity.
Qed.

(** A round of sigsuspend that returns has taken one signal off the list. *)
Lemma sigsuspend_consumes mask w w' :
  sigsuspend mask w = (Done tt, w') -> S (pending w') = pending w.
Proof.
  unfold sigsuspend. rewrite (bind_done _ _ _ _ _ (emit_log _ _)).
  unfold bind at 1, gets at 1. rewrite kernel_log.
  destruct (pick mask (arrivals (kernel w))) as [[d rest]|] eqn:Hpick; [|discriminate].
  unfold bind, modify. intro H.
  pose proof (deliver_same_kernel d
                (set_kernel (set_arrivals rest (kernel (log [Sigsuspend mask] w)))
                            (log [Sigsuspend mask] w))) as Hk.
  destruct (deliver d _) as [[[]|s] w2]; [|discriminate].
  inversion H; subst. unfold same_kernel in Hk. simpl in Hk.
  unfold pending. rewrite Hk. simpl.
  exact (pick_shorter _ _ _ _ Hpick).
Qed.

(** The loop never runs out of rounds: any two numbers of rounds above the
    number of pending signals give the same run. *)
Lemma wait_rounds_enough cond mask n m w :
  (pending w < n)%nat -> (pending w < m)%nat ->
  wait_rounds cond mask n w = wait_rounds cond mask m w.
Proof.
  revert m w. induction n as [|n IH]; intros m w Hn Hm; [lia|].
  destruct m as [|m]; [lia|].
  cbn [wait_rounds]. unfold bind at 1 3, gets.
  destruct (cond (joblist w)); [|reflexivity].
  unfold bind. destruct (sigsuspend mask w) as [[[]|s] w'] eqn:Hs; [|reflexivity].
  apply sigsuspend_consumes in Hs. apply IH; lia.
Qed.

Lemma wait_while_rounds cond mask n w :
  (pending w < n)%nat -> wait_while cond mask w = wait_rounds cond mask n w.
Proof.
  intro H. unfold wait_while, bind at 1, gets at 1.
  apply wait_rounds_enough; [unfold pending; lia | exact H].
Qed.

(** ** Terminal hand-off *)

Lemma tcsetpgrp_eq fd pgid w :
  tcsetpgrp fd pgid w = (Done (tc_answer w), log [Tcsetpgrp fd pgid] (tc_consumed w)).
Proof. reflexivity. Qed.

(** C9. When tcsetpgrp fails, transferTerminalControl throws the
    diagnostic "tcsetpgrp: A serious problem happens", except when errno is
    ENOTTY: then it returns normally and nothing is reported.  Either way
    the one call it issues is tcsetpgrp(STDIN_FILENO, pgid). *)
Theorem transferTerminalControl_failure pgid w errno :
  tc_answer w = (-1, errno) ->
  transferTerminalControl pgid w
  = (if errno =? ENOTTY
     then Done tt
     else Halt (Throw (STSHException "tcsetpgrp: A serious problem happens")),
     log [Tcsetpgrp STDIN_FILENO pgid] (tc_consumed w)).
Proof.
  intro Hans. unfold transferTerminalControl.
  rewrite (bind_done _ _ _ _ _ (tcsetpgrp_eq _ _ _)), Hans.
  simpl. destruct (errno =? ENOTTY); reflexivity.
Qed.

Lemma transferTerminalControl_failure_witness :
  fst (transferTerminalControl 100 (with_tcsetpgrps [(-1, 1)] world0))
  = Halt (Throw (STSHException "tcsetpgrp: A serious problem happens"))
  /\ fst (transferTerminalControl 100 (with_tcsetpgrps [(-1, ENOTTY)] world0)) = Done tt.
Proof.
  split.
  - rewrite (transferTerminalControl_failure 100 (with_tcsetpgrps [(-1, 1)] world0) 1).
    + reflexivity.
    + reflexivity.
  - rewrite (transferTerminalControl_failure 100 (with_tcsetpgrps [(-1, ENOTTY)] world0) ENOTTY).
    + reflexivity.
    + reflexivity.
Defined.

(** ** Forwarding SIGINT and SIGTSTP *)

Lemma hasForegroundJob_get jl :
  JobList.hasForegroundJob jl = true <-> exists job, JobList.getForegroundJob jl = Some job.
Proof.
  unfold JobList.hasForegroundJob, JobList.getForegroundJob.
  induction jl as [|j jl IH]; simpl.
  - split; [discriminate | intros [? ?]; discriminate].
  - destruct (JobList.isForeground j); simpl; [split; eauto | exact IH].
Qed.

Lemma hasForegroundJob_none jl :
  JobList.getForegroundJob jl = None -> JobList.hasForegroundJob jl = false.
Proof.
  intro H. destruct (JobList.hasForegroundJob jl) eqn:E; [|reflexivity].
  apply hasForegroundJob_get in E. destruct E as [job E]. congruence.
Qed.

(** C5 (as amended). When SIGINT or SIGTSTP is delivered while a foreground
    job exists, the handler sends that signal to every member process of
    the foreground job, one kill per member on the member's own pid, in
    pipeline order, and does nothing else; no kill is issued on a negated
    process-group id. *)
Theorem sigIntStopHandler_forwards_to_members d w job :
  d = Intr \/ d = Tstp ->
  JobList.getForegroundJob (joblist w) = Some job ->
  deliver d w
  = (Done tt, log (map (fun proc => Kill (getID proc) (signo d)) (getProcesses job)) w).
Proof.
  intros Hd Hfg.
  assert (Hhas : JobList.hasForegroundJob (joblist w) = true)
    by (apply hasForegroundJob_get; eauto).
  assert (Hrun : forall sig, sigIntStopHandler sig w
            = (Done tt, log (map (fun proc => Kill (getID proc) sig) (getProcesses job)) w)).
  { intro sig. unfold sigIntStopHandler, bind, gets. rewrite Hhas, Hfg. apply forM_kill. }
  destruct Hd as [-> | ->]; simpl; apply Hrun.
Qed.

Lemma sigIntStopHandler_forwards_to_members_witness :
  deliver Intr world_fg_pair
  = (Done tt, log [Kill 100 SIGINT; Kill 101 SIGINT] world_fg_pair).
Proof.
  apply (sigIntStopHandler_forwards_to_members Intr world_fg_pair
           (mkJob 1 kForeground [mkProcess 100 cat_cmd kRunning;
                                 mkProcess 101 sleep_cmd kRunning])).
  - left; reflexivity.
  - reflexivity.
Defined.

(** C5 as stated fails: with the pipeline 100 | 101 in the foreground, a
    SIGINT makes the handler issue two kills, on 100 and on 101, and none on
    the negated group id -100. *)
Lemma sigint_is_not_one_group_kill :
  trace (snd (deliver Intr world_fg_pair)) = [Kill 100 SIGINT; Kill 101 SIGINT]
  /\ trace (snd (deliver Intr world_fg_pair)) <> [Kill (-100) SIGINT].
Proof. split; [reflexivity | discriminate]. Qed.

(** ** bg *)

Lemma atoi_zero_literal arg : String.eqb arg "0" = true -> atoi arg = 0.
Proof. intro H. apply String.eqb_eq in H. subst. reflexivity. Qed.

Lemma containsJob_getJob id jl :
  JobList.containsJob id jl = true <-> exists job, JobList.getJob id jl = Some job.
Proof.
  unfold JobList.containsJob, JobList.getJob.
  induction jl as [|j jl IH]; simpl.
  - split; [discriminate | intros [? ?]; discriminate].
  - destruct (getNum j =? id); simpl; [split; eauto | exact IH].
Qed.

Lemma getJob_contains id jl job :
  JobList.getJob id jl = Some job -> JobList.containsJob id jl = true.
Proof. intro H; apply containsJob_getJob; eauto. Qed.

Lemma getJob_none id jl :
  JobList.getJob id jl = None -> JobList.containsJob id jl = false.
Proof.
  intro H. destruct (JobList.containsJob id jl) eqn:E; [|reflexivity].
  apply containsJob_getJob in E. destruct E as [job E]. congruence.
Qed.

(** C8. bg with the id of a job of the list sends SIGCONT to every member
    process of that job, one kill per member, and returns.  The world it
    returns differs from the one it started in by these kills alone: the
    job list (and with it the scheduling class of the job) is unchanged,
    there is no sigsuspend and no tcsetpgrp. *)
Theorem builtinBg_only_continues p c rest arg w job :
  commands p = c :: rest ->
  token c 0 = Some arg ->
  atoi arg <> 0 ->
  JobList.getJob (to_size_t (atoi arg)) (joblist w) = Some job ->
  builtinBg p w
  = (Done tt, log (map (fun proc => Kill (getID proc) SIGCONT) (getProcesses job)) w).
Proof.
  intros Hc Harg Hnz Hjob.
  unfold builtinBg, first_command. rewrite Hc.
  unfold bind at 1, ret at 1. rewrite Harg.
  destruct (String.eqb arg "0") eqn:E0.
  { apply atoi_zero_literal in E0. contradiction. }
  destruct (atoi arg =? 0) eqn:Ez.
  { apply Z.eqb_eq in Ez. contradiction. }
  unfold bind at 1, gets at 1.
  rewrite (getJob_contains _ _ _ Hjob), Hjob. simpl.
  apply forM_kill.
Qed.

Lemma builtinBg_only_continues_witness :
  builtinBg (line "bg" ["1"]) world_bg_stopped
  = (Done tt, log [Kill 100 SIGCONT; Kill 101 SIGCONT] world_bg_stopped).
Proof.
  apply (builtinBg_only_continues (line "bg" ["1"]) (mkCommand "bg" ["1"]) [] "1"
           world_bg_stopped stopped_pair).
  - reflexivity.
  - reflexivity.
  - vm_compute; discriminate.
  - reflexivity.
Defined.

(** ** slay, halt and cont *)

Lemma containsProcess_tracked pid jl :
  JobList.containsProcess pid jl = true <-> tracked pid jl.
Proof.
  unfold JobList.containsProcess, Job.containsProcess, tracked.
  rewrite existsb_exists. split.
  - intros [job [Hin Hex]]. apply existsb_exists in Hex.
    destruct Hex as [proc [Hp Heq]]. apply Z.eqb_eq in Heq. eauto.
  - intros [job [proc [Hin [Hp Heq]]]]. exists job. split; [assumption|].
    apply existsb_exists. exists proc. split; [assumption|]. now apply Z.eqb_eq.
Qed.

Lemma atoi_range s : - 2^31 <= atoi s < 2^31.
Proof.
  unfold atoi, wrap_int.
  pose proof (Z.mod_pos_bound (strtol10 s + 2^31) (2^32) ltac:(lia)). lia.
Qed.

Lemma to_size_t_nonneg z : 0 <= z < 2^31 -> to_size_t z = z.
Proof. intros H. unfold to_size_t. apply Z.mod_small. lia. Qed.

Lemma to_size_t_negative z : - 2^31 <= z < 0 -> to_size_t z = z + 2^64.
Proof.
  intros H. unfold to_size_t.
  symmetry. apply (Z.mod_unique_pos z (2^64) (-1) (z + 2^64)); lia.
Qed.

Lemma job_owns_member job proc :
  In proc (getProcesses job) -> Job.containsProcess (getID proc) job = true.
Proof.
  intro H. unfold Job.containsProcess. apply existsb_exists.
  exists proc. split; [assumption | apply Z.eqb_refl].
Qed.

Section BuiltinSignals.
Variables (p : pipeline) (c : command) (rest : list command).
Variables (cmdName : string) (sig : Z) (w : World).
Hypothesis Hcommands : commands p = c :: rest.

Lemma builtinSignals_pid a :
  tokens c = [a] ->
  JobList.containsProcess (atoi a) (joblist w) = true ->
  builtinSignals p cmdName sig w = (Done tt, log [Kill (atoi a) sig] w).
Proof.
  intros Ht Hc. unfold builtinSignals, first_command. rewrite Hcommands.
  unfold bind at 1, ret at 1, token. rewrite Ht.
  unfold bind, ret, gets. cbn [nth_error].
  rewrite Hc. reflexivity.
Qed.

Lemma builtinSignals_no_pid a :
  tokens c = [a] ->
  JobList.containsProcess (atoi a) (joblist w) = false ->
  builtinSignals p cmdName sig w
  = (Halt (Throw (STSHException ("No process with pid " ++ to_string (atoi a)))), w).
Proof.
  intros Ht Hc. unfold builtinSignals, first_command. rewrite Hcommands.
  unfold bind at 1, ret at 1, token. rewrite Ht.
  unfold bind, ret, gets. cbn [nth_error].
  rewrite Hc. reflexivity.
Qed.

Lemma builtinSignals_no_job a b more :
  tokens c = a :: b :: more ->
  JobList.getJob (to_size_t (atoi a)) (joblist w) = None ->
  builtinSignals p cmdName sig w
  = (Halt (Throw (STSHException ("No job with id " ++ to_string (atoi a)))), w).
Proof.
  intros Ht Hj. unfold builtinSignals, first_command. rewrite Hcommands.
  unfold bind at 1, ret at 1, token. rewrite Ht.
  unfold bind, ret, gets. cbn [nth_error].
  rewrite (getJob_none _ _ Hj). reflexivity.
Qed.

Lemma builtinSignals_index a b more job proc :
  tokens c = a :: b :: more ->
  JobList.getJob (to_size_t (atoi a)) (joblist w) = Some job ->
  0 <= atoi b ->
  nth_error (getProcesses job) (Z.to_nat (atoi b)) = Some proc ->
  builtinSignals p cmdName sig w = (Done tt, log [Kill (getID proc) sig] w).
Proof.
  intros Ht Hj Hpos Hnth. unfold builtinSignals, first_command. rewrite Hcommands.
  unfold bind at 1, ret at 1, token. rewrite Ht.
  unfold bind, ret, gets. cbn [nth_error].
  rewrite (getJob_contains _ _ _ Hj), Hj. cbn [negb].
  pose proof (atoi_range b) as Hr.
  rewrite (to_size_t_nonneg (atoi b)) by lia.
  assert (Hlen : (Z.to_nat (atoi b) < List.length (getProcesses job))%nat).
  { apply nth_error_Some. congruence. }
  destruct (Z.of_nat (List.length (getProcesses job)) <=? atoi b) eqn:E.
  { apply Z.leb_le in E. lia. }
  rewrite Hnth, (job_owns_member job proc (nth_error_In _ _ Hnth)). reflexivity.
Qed.

Lemma builtinSignals_bad_index a b more job :
  tokens c = a :: b :: more ->
  JobList.getJob (to_size_t (atoi a)) (joblist w) = Some job ->
  Z.of_nat (List.length (getProcesses job)) < 2^63 ->
  atoi b < 0 \/ Z.of_nat (List.length (getProcesses job)) <= atoi b ->
  builtinSignals p cmdName sig w
  = (Halt (Throw (STSHException ("Job " ++ to_string (atoi a)
                                 ++ "doesn't have a pid at index " ++ to_string (atoi b)))), w).
Proof.
  intros Ht Hj Hsize Hbad. unfold builtinSignals, first_command. rewrite Hcommands.
  unfold bind at 1, ret at 1, token. rewrite Ht.
  unfold bind, ret, gets. cbn [nth_error].
  rewrite (getJob_contains _ _ _ Hj), Hj. cbn [negb].
  pose proof (atoi_range b) as Hr.
  assert (E : (Z.of_nat (List.length (getProcesses job)) <=? to_size_t (atoi b)) = true).
  { apply Z.leb_le. destruct (Z.lt_ge_cases (atoi b) 0) as [Hneg | Hnn].
    - rewrite to_size_t_negative by lia. lia.
    - rewrite to_size_t_nonneg by lia. lia. }
  rewrite E. reflexivity.
Qed.
End BuiltinSignals.

Lemma handleBuiltin_signals name sig p c rest w :
  In (name, sig) signal_builtins ->
  commands p = c :: rest ->
  cmd_name c = name ->
  handleBuiltin p w = (builtinSignals p name sig ;; ret true) w.
Proof.
  intros Hin Hc Hname. unfold handleBuiltin, first_command. rewrite Hc.
  unfold bind at 1, ret at 1. rewrite Hname.
  destruct Hin as [E | [E | [E | []]]]; inversion E; subst; reflexivity.
Qed.

(** C7. slay, halt and cont stand for SIGINT, SIGTSTP and SIGCONT.  With
    one argument the number is a pid: the builtin fails with "No process
    with pid ..." unless the job list tracks that pid, and otherwise sends
    the signal to exactly that pid.  With two arguments they are a job id
    and a zero-based index into the processes of that job: the builtin
    fails with "No job with id ..." when the id is unknown, with "Job ...
    doesn't have a pid at index ..." when the index is negative or not
    below the number of processes, and otherwise sends the signal to
    exactly the process at that index.  A failure leaves the world as it
    was; a success adds the one kill to it and nothing else. *)
Theorem builtinSignals_addressing name sig p c rest w :
  In (name, sig) signal_builtins ->
  commands p = c :: rest ->
  cmd_name c = name ->
  (forall a, tokens c = [a] ->
     (tracked (atoi a) (joblist w) ->
        handleBuiltin p w = (Done true, log [Kill (atoi a) sig] w)) /\
     (~ tracked (atoi a) (joblist w) ->
        handleBuiltin p w
        = (Halt (Throw (STSHException ("No process with pid " ++ to_string (atoi a)))), w))) /\
  (forall a b more, tokens c = a :: b :: more ->
     (JobList.getJob (to_size_t (atoi a)) (joblist w) = None ->
        handleBuiltin p w
        = (Halt (Throw (STSHException ("No job with id " ++ to_string (atoi a)))), w)) /\
     (forall job,
        JobList.getJob (to_size_t (atoi a)) (joblist w) = Some job ->
        Z.of_nat (List.length (getProcesses job)) < 2^63 ->
        (forall proc,
           0 <= atoi b ->
           nth_error (getProcesses job) (Z.to_nat (atoi b)) = Some proc ->
           handleBuiltin p w = (Done true, log [Kill (getID proc) sig] w)) /\
        (atoi b < 0 \/ Z.of_nat (List.length (getProcesses job)) <= atoi b ->
           handleBuiltin p w
           = (Halt (Throw (STSHException
                             ("Job " ++ to_string (atoi a)
                              ++ "doesn't have a pid at index " ++ to_string (atoi b)))), w)))).
Proof.
  intros Hin Hc Hname.
  pose proof (handleBuiltin_signals name sig p c rest w Hin Hc Hname) as Hdispatch.
  split.
  - intros a Ht. split; intro Htr; rewrite Hdispatch.
    + apply containsProcess_tracked in Htr.
      now rewrite (bind_done _ _ _ _ _ (builtinSignals_pid p c rest name sig w Hc a Ht Htr)).
    + assert (Hno : JobList.containsProcess (atoi a) (joblist w) = false).
      { destruct (JobList.containsProcess (atoi a) (joblist w)) eqn:E; [|reflexivity].
        apply containsProcess_tracked in E. contradiction. }
      now rewrite (bind_halt _ _ _ _ _ (builtinSignals_no_pid p c rest name sig w Hc a Ht Hno)).
  - intros a b more Ht. split.
    + intro Hnone. rewrite Hdispatch.
      now rewrite (bind_halt _ _ _ _ _
                     (builtinSignals_no_job p c rest name sig w Hc a b more Ht Hnone)).
    + intros job Hjob Hsize. split.
      * intros proc Hpos Hnth. rewrite Hdispatch.
        now rewrite (bind_done _ _ _ _ _
                       (builtinSignals_index p c rest name sig w Hc a b more job proc
                          Ht Hjob Hpos Hnth)).
      * intro Hbad. rewrite Hdispatch.
        now rewrite (bind_halt _ _ _ _ _
                       (builtinSignals_bad_index p c rest name sig w Hc a b more job
                          Ht Hjob Hsize Hbad)).
Qed.

Lemma builtinSignals_addressing_witness :
  handleBuiltin (line "halt" ["1"; "1"]) world_fg_pair
  = (Done true, log [Kill 101 SIGTSTP] world_fg_pair).
Proof.
  pose proof (builtinSignals_addressing "halt" SIGTSTP (line "halt" ["1"; "1"])
                (mkCommand "halt" ["1"; "1"]) [] world_fg_pair) as H.
  destruct H as [_ H].
  - right; left; reflexivity.
  - reflexivity.
  - reflexivity.
  - destruct (H "1" "1" [] eq_refl) as [_ Hjob].
    destruct (Hjob (mkJob 1 kForeground [mkProcess 100 cat_cmd kRunning;
                                         mkProcess 101 sleep_cmd kRunning])) as [Hok _].
    + reflexivity.
    + reflexivity.
    + apply (Hok (mkProcess 101 sleep_cmd kRunning)).
      * vm_compute; discriminate.
      * reflexivity.
Defined.

(** ** The diagnostics of fg and bg *)

Lemma literal_zero_eqb arg : arg <> "0" -> String.eqb arg "0" = false.
Proof.
  intro H. destruct (String.eqb arg "0") eqn:E; [|reflexivity].
  apply String.eqb_eq in E. contradiction.
Qed.

Section ArgumentChecks.
Variables (p : pipeline) (c : command) (rest : list command) (w : World).
Hypothesis Hcommands : commands p = c :: rest.

Ltac enter f :=
  unfold f, first_command; rewrite Hcommands; unfold bind at 1, ret at 1.

Lemma builtinFg_missing :
  token c 0 = None ->
  builtinFg p w = (Halt (Throw (STSHException "Usage: fg <jobid>.")), w).
Proof. intro H. enter builtinFg. now rewrite H. Qed.

Lemma builtinFg_literal_zero :
  token c 0 = Some "0" ->
  builtinFg p w = (Halt (Throw (STSHException "fg 0: No such job.")), w).
Proof. intro H. enter builtinFg. now rewrite H. Qed.

Lemma builtinFg_parses_to_zero arg :
  token c 0 = Some arg -> arg <> "0" -> atoi arg = 0 ->
  builtinFg p w = (Halt (Throw (STSHException "Usage: fg <jobid>.")), w).
Proof.
  intros H Hne Hz. enter builtinFg.
  now rewrite H, (literal_zero_eqb _ Hne), Hz.
Qed.

Lemma builtinBg_missing :
  token c 0 = None ->
  builtinBg p w = (Halt (Throw (STSHException "Usage: bg <jobid>.")), w).
Proof. intro H. enter builtinBg. now rewrite H. Qed.

Lemma builtinBg_literal_zero :
  token c 0 = Some "0" ->
  builtinBg p w = (Halt (Throw (STSHException "fg 0: No such job.")), w).
Proof. intro H. enter builtinBg. now rewrite H. Qed.

Lemma builtinBg_parses_to_zero arg :
  token c 0 = Some arg -> arg <> "0" -> atoi arg = 0 ->
  builtinBg p w = (Halt (Throw (STSHException "Usage: fg <jobid>.")), w).
Proof.
  intros H Hne Hz. enter builtinBg.
  now rewrite H, (literal_zero_eqb _ Hne), Hz.
Qed.

Lemma builtinBg_unknown arg :
  token c 0 = Some arg -> atoi arg <> 0 ->
  JobList.getJob (to_size_t (atoi arg)) (joblist w) = None ->
  builtinBg p w
  = (Halt (Throw (STSHException ("fg " ++ to_string (atoi arg) ++ ": No such job."))),
     log [Cout ("jobid: " ++ to_string (atoi arg) ++ endl)] w).
Proof.
  intros H Hnz Hnone. enter builtinBg. rewrite H.
  destruct (String.eqb arg "0") eqn:E0.
  { apply atoi_zero_literal in E0. contradiction. }
  destruct (atoi arg =? 0) eqn:Ez.
  { apply Z.eqb_eq in Ez. contradiction. }
  unfold bind at 1, gets at 1. rewrite (getJob_none _ _ Hnone). reflexivity.
Qed.
End ArgumentChecks.

(** C10 (as amended). For fg and for bg alike the argument "0" is reported
    as "fg 0: No such job." and every other argument that atoi parses to 0
    as "Usage: fg <jobid>.".  bg also reports an unknown job id under the
    name of fg, as "fg <id>: No such job."; only for a missing argument
    does bg name itself: "Usage: bg <jobid>.". *)
Theorem fg_bg_diagnostics p c rest w :
  commands p = c :: rest ->
  (token c 0 = Some "0" ->
     builtinFg p w = (Halt (Throw (STSHException "fg 0: No such job.")), w) /\
     builtinBg p w = (Halt (Throw (STSHException "fg 0: No such job.")), w)) /\
  (forall arg, token c 0 = Some arg -> arg <> "0" -> atoi arg = 0 ->
     builtinFg p w = (Halt (Throw (STSHException "Usage: fg <jobid>.")), w) /\
     builtinBg p w = (Halt (Throw (STSHException "Usage: fg <jobid>.")), w)) /\
  (forall arg, token c 0 = Some arg -> atoi arg <> 0 ->
     JobList.getJob (to_size_t (atoi arg)) (joblist w) = None ->
     builtinBg p w
     = (Halt (Throw (STSHException ("fg " ++ to_string (atoi arg) ++ ": No such job."))),
        log [Cout ("jobid: " ++ to_string (atoi arg) ++ endl)] w)) /\
  (token c 0 = None ->
     builtinBg p w = (Halt (Throw (STSHException "Usage: bg <jobid>.")), w)).
Proof.
  intro Hc. repeat split.
  - now apply (builtinFg_literal_zero p c rest).
  - now apply (builtinBg_literal_zero p c rest).
  - now apply (builtinFg_parses_to_zero p c rest w Hc arg).
  - now apply (builtinBg_parses_to_zero p c rest w Hc arg).
  - intros arg H Hnz Hnone. now apply (builtinBg_unknown p c rest).
  - now apply (builtinBg_missing p c rest).
Qed.

Lemma fg_bg_diagnostics_witness :
  builtinBg (line "bg" ["abc"]) world_bg_stopped
  = (Halt (Throw (STSHException "Usage: fg <jobid>.")), world_bg_stopped)
  /\ builtinBg (line "bg" ["7"]) world_bg_stopped
     = (Halt (Throw (STSHException "fg 7: No such job.")),
        log [Cout ("jobid: 7" ++ endl)] world_bg_stopped).
Proof.
  split.
  - destruct (fg_bg_diagnostics (line "bg" ["abc"]) (mkCommand "bg" ["abc"]) []
                world_bg_stopped eq_refl) as [_ [H _]].
    apply (H "abc").
    + reflexivity.
    + discriminate.
    + reflexivity.
  - destruct (fg_bg_diagnostics (line "bg" ["7"]) (mkCommand "bg" ["7"]) []
                world_bg_stopped eq_refl) as [_ [_ [H _]]].
    apply (H "7").
    + reflexivity.
    + vm_compute; discriminate.
    + reflexivity.
Defined.

(** C10 as stated fails for the missing argument: the diagnostic of a bare
    bg names bg and does not name fg. *)
Lemma bg_missing_argument_names_bg :
  exists what,
    fst (builtinBg (line "bg" []) world0) = Halt (Throw (STSHException what))
    /\ mentions "bg" what = true
    /\ mentions "fg" what = false.
Proof. exists "Usage: bg <jobid>.". repeat split. Qed.

(** ** The reaper *)

Lemma low7 status : Z.land status 127 = status mod 128.
Proof. change 127 with (Z.ones 7). now rewrite Z.land_ones by lia. Qed.

Lemma low8 status : Z.land status 255 = status mod 256.
Proof. change 255 with (Z.ones 8). now rewrite Z.land_ones by lia. Qed.

Lemma signed_char_test m :
  0 <= m < 128 ->
  (0 <? Z.shiftr (if 128 <=? m + 1 then m + 1 - 256 else m + 1) 1) = true <-> 1 <= m <= 126.
Proof.
  intro Hm. destruct (128 <=? m + 1) eqn:E.
  - apply Z.leb_le in E. assert (m = 127) by lia. subst m.
    simpl. split; [discriminate | lia].
  - apply Z.leb_gt in E. rewrite Z.shiftr_div_pow2 by lia.
    change (2 ^ 1) with 2. rewrite Z.ltb_lt.
    split; intro H.
    + destruct (Z.lt_ge_cases (m + 1) 2) as [Hlt | Hge]; [|lia].
      rewrite (Z.div_small (m + 1) 2) in H by lia. lia.
    + apply Z.div_str_pos. lia.
Qed.

Lemma WIFSIGNALED_low7 status :
  WIFSIGNALED status = true <-> 1 <= status mod 128 <= 126.
Proof.
  unfold WIFSIGNALED. cbv zeta. rewrite low7.
  apply signed_char_test. apply Z.mod_pos_bound. lia.
Qed.

(** The four classes of a wait status exclude one another. *)
Lemma status_classes_exclusive status :
  (WIFEXITED status || WIFSIGNALED status = true ->
     WIFSTOPPED status = false /\ WIFCONTINUED status = false)
  /\ (WIFSTOPPED status = true -> WIFCONTINUED status = false).
Proof.
  pose proof (Z.div_mod status 128 ltac:(lia)) as D7.
  pose proof (Z.div_mod status 256 ltac:(lia)) as D8.
  pose proof (Z.mod_pos_bound status 128 ltac:(lia)) as B7.
  pose proof (Z.mod_pos_bound status 256 ltac:(lia)) as B8.
  assert (Hlow : status mod 128 <= 126 ->
                 WIFSTOPPED status = false /\ WIFCONTINUED status = false).
  { intro Hle. unfold WIFSTOPPED, WIFCONTINUED. rewrite low8. split.
    - apply Z.eqb_neq. lia.
    - apply Z.eqb_neq. intro Hs. rewrite Hs in Hle. vm_compute in Hle. now apply Hle. }
  split.
  - intro H. apply orb_true_iff in H. destruct H as [H | H].
    + unfold WIFEXITED, WTERMSIG in H. rewrite low7 in H. apply Z.eqb_eq in H.
      apply Hlow. lia.
    + apply WIFSIGNALED_low7 in H. apply Hlow. lia.
  - unfold WIFSTOPPED, WIFCONTINUED. rewrite low8. intro H. apply Z.eqb_eq in H.
    apply Z.eqb_neq. intro Hs. rewrite Hs in H. vm_compute in H. discriminate.
Qed.

Lemma getJobWithProcess_owner pid jl job :
  JobList.getJobWithProcess pid jl = Some job ->
  In job jl /\ Job.containsProcess pid job = true.
Proof. intro H. now apply find_some in H. Qed.

Lemma containsProcess_getProcess pid job :
  Job.containsProcess pid job = true -> exists proc, Job.getProcess pid job = Some proc.
Proof.
  unfold Job.containsProcess, Job.getProcess.
  induction (getProcesses job) as [|q ps IH]; simpl; [discriminate|].
  destruct (getID q =? pid); simpl; eauto.
Qed.

Lemma getJobWithProcess_tracked pid jl :
  JobList.getJobWithProcess pid jl = None <-> ~ tracked pid jl.
Proof.
  rewrite <- containsProcess_tracked.
  unfold JobList.getJobWithProcess, JobList.containsProcess.
  induction jl as [|j jl IH]; simpl.
  - split; [intros _ H; discriminate | reflexivity].
  - destruct (Job.containsProcess pid j); simpl; [|exact IH].
    split; [discriminate | intro H; exfalso; now apply H].
Qed.

Lemma set_joblist_twice a b w : set_joblist a (set_joblist b w) = set_joblist a w.
Proof. reflexivity. Qed.

Lemma set_joblist_log jl evs w : set_joblist jl (log evs w) = log evs (set_joblist jl w).
Proof. reflexivity. Qed.

Lemma set_joblist_same w : set_joblist (joblist w) w = w.
Proof. now destruct w. Qed.

Lemma changeProcessStatus_owned pid st w job :
  JobList.getJobWithProcess pid (joblist w) = Some job ->
  changeProcessStatus pid st w
  = (Done tt, set_joblist (apply_transition pid st job (joblist w)) w).
Proof.
  intro H. unfold changeProcessStatus, bind at 1, gets at 1. rewrite H.
  destruct (getJobWithProcess_owner _ _ _ H) as [_ Hown]. rewrite Hown.
  destruct (containsProcess_getProcess _ _ Hown) as [proc ->].
  reflexivity.
Qed.

Lemma changeProcessStatus_unowned pid st w :
  JobList.getJobWithProcess pid (joblist w) = None ->
  changeProcessStatus pid st w = (Halt (Throw NotFound), w).
Proof. intro H. unfold changeProcessStatus, bind at 1, gets at 1. now rewrite H. Qed.

(** One round of the loop on a reaped pid: at most one of the three tests
    of the handler fires, the one [transition] names. *)
Lemma sigchildHandler_round pid status rest w :
  0 < pid ->
  sigchildHandler ((pid, status) :: rest) w
  = (match transition status with
     | Some st => changeProcessStatus pid st
     | None => ret tt
     end ;; sigchildHandler rest) (log [Waitpid (-1) reap_options] w).
Proof.
  intro Hpid. cbn [sigchildHandler].
  rewrite (bind_done _ _ _ _ _ (emit_log _ _)).
  assert (E : (pid <=? 0) = false) by (apply Z.leb_gt; lia). rewrite E.
  destruct (status_classes_exclusive status) as [Hterm Hstop].
  unfold transition, when.
  destruct (WIFEXITED status || WIFSIGNALED status) eqn:E1.
  - destruct (Hterm eq_refl) as [-> ->]. unfold bind, ret.
    destruct (changeProcessStatus pid kTerminated _) as [[[]|s] w']; reflexivity.
  - destruct (WIFSTOPPED status) eqn:E2.
    + rewrite (Hstop eq_refl). unfold bind, ret.
      destruct (changeProcessStatus pid kStopped _) as [[[]|s] w']; reflexivity.
    + destruct (WIFCONTINUED status); reflexivity.
Qed.

Lemma sigchildHandler_end answers w :
  match answers with
  | [] => True
  | (pid, _) :: _ => pid <= 0
  end ->
  sigchildHandler answers w = (Done tt, log [Waitpid (-1) reap_options] w).
Proof.
  destruct answers as [|[pid status] rest]; intro H; cbn [sigchildHandler];
    rewrite (bind_done _ _ _ _ _ (emit_log _ _)); [reflexivity|].
  assert (E : (pid <=? 0) = true) by (apply Z.leb_le; lia). now rewrite E.
Qed.

(** C1. One run of the SIGCHLD handler calls waitpid(-1, &status,
    WNOHANG | WUNTRACED | WCONTINUED) again and again until a call returns
    pid <= 0.  For every pid reaped before that it writes the state of the
    status (exit or fatal signal: Terminated, stop: Stopped, continue:
    Running) into the owning process and synchronizes the job of that
    process: the job list it leaves is the one [reap_spec] computes. *)
Theorem sigchildHandler_reaps answers w :
  owners_known answers (joblist w) = true ->
  sigchildHandler answers w
  = (Done tt,
     log (repeat (Waitpid (-1) (Z.lor (Z.lor WNOHANG WUNTRACED) WCONTINUED)) (waits answers))
         (set_joblist (reap_spec answers (joblist w)) w)).
Proof.
  fold reap_options. revert w.
  induction answers as [|[pid status] rest IH]; intros w Hown.
  - rewrite sigchildHandler_end by exact I. simpl. now rewrite set_joblist_same.
  - destruct (Z.leb_spec pid 0) as [Hle | Hgt].
    + rewrite sigchildHandler_end by exact Hle.
      assert (E : (pid <=? 0) = true) by (apply Z.leb_le; lia).
      simpl. rewrite E. now rewrite set_joblist_same.
    + rewrite sigchildHandler_round by exact Hgt.
      assert (E : (pid <=? 0) = false) by (apply Z.leb_gt; lia).
      cbn [owners_known reap_spec waits] in *. rewrite E in *.
      destruct (transition status) as [st|].
      * destruct (JobList.getJobWithProcess pid (joblist w)) as [job|] eqn:Hjob;
          [|discriminate].
        rewrite (bind_done _ _ _ _ _
                   (changeProcessStatus_owned pid st (log _ w) job Hjob)).
        rewrite IH by exact Hown.
        cbn [repeat]. simpl joblist.
        now rewrite set_joblist_twice, set_joblist_log, log_log.
      * unfold bind at 1, ret at 1. rewrite IH by exact Hown.
        cbn [repeat]. simpl joblist.
        now rewrite set_joblist_log, log_log.
Qed.

Lemma sigchildHandler_reaps_witness :
  sigchildHandler pair_life world_fg_pair
  = (Done tt, log (repeat (Waitpid (-1) 11) 5) (set_joblist [] world_fg_pair)).
Proof.
  apply (sigchildHandler_reaps pair_life world_fg_pair).
  reflexivity.
Defined.

(** C6 (as amended). When the reaper reaps a pid that no job of the list
    owns, the lookup of the owning job fails with NotFound and the failure
    leaves the handler as an exception: the job list is not changed, and
    the statuses still pending are not drained by this run. *)
Theorem sigchildHandler_unowned_pid pid status st rest w :
  0 < pid ->
  transition status = Some st ->
  ~ tracked pid (joblist w) ->
  sigchildHandler ((pid, status) :: rest) w
  = (Halt (Throw NotFound), log [Waitpid (-1) reap_options] w).
Proof.
  intros Hpid Hst Hun. rewrite sigchildHandler_round by exact Hpid. rewrite Hst.
  apply getJobWithProcess_tracked in Hun.
  apply bind_halt. now apply changeProcessStatus_unowned.
Qed.

Lemma untracked_999 : ~ tracked 999 (joblist world_fg_pair).
Proof. apply getJobWithProcess_tracked. reflexivity. Qed.

Lemma sigchildHandler_unowned_pid_witness :
  sigchildHandler [(999, 0); (100, 0)] world_fg_pair
  = (Halt (Throw NotFound), log [Waitpid (-1) reap_options] world_fg_pair).
Proof.
  apply (sigchildHandler_unowned_pid 999 0 kTerminated [(100, 0)] world_fg_pair).
  - reflexivity.
  - reflexivity.
  - exact untracked_999.
Defined.

(** C6 as stated fails: no job owns 999, and reaping it ends the handler
    with the NotFound exception instead of a normal return. *)
Lemma unowned_pid_raises :
  ~ tracked 999 (joblist world_fg_pair)
  /\ fst (sigchildHandler [(999, 0)] world_fg_pair) = Halt (Throw NotFound)
  /\ fst (sigchildHandler [(999, 0)] world_fg_pair) <> Done tt.
Proof. split; [exact untracked_999 | split; [reflexivity | discriminate]]. Qed.

(** ** fg and the terminal *)

(** C2, on fg 1 in [world_fg_resume], where job 1 sits stopped in the
    background: fg blocks the signals, promotes the job, continues its
    group with one kill on -100, sleeps in sigsuspend until the job has
    left the list, and unblocks the signals.  It never calls tcsetpgrp: the
    terminal is neither given to group 100 nor handed back to the shell. *)
Theorem builtinFg_leaves_terminal_alone :
  handleBuiltin (line "fg" ["1"]) world_fg_resume
  = (Done true,
     log [Sigprocmask SIG_BLOCK [SIGINT; SIGTSTP; SIGCONT; SIGCHLD];
          Kill (-100) SIGCONT;
          Sigsuspend []; Waitpid (-1) 11; Waitpid (-1) 11; Waitpid (-1) 11;
          Sigsuspend []; Waitpid (-1) 11; Waitpid (-1) 11; Waitpid (-1) 11;
          Sigprocmask SIG_UNBLOCK [SIGINT; SIGTSTP; SIGCONT; SIGCHLD]]
         (set_joblist [] world0))
  /\ existsb is_tcsetpgrp (trace (snd (handleBuiltin (line "fg" ["1"]) world_fg_resume)))
     = false.
Proof. split; reflexivity. Qed.

(** fg never touches the terminal, whatever its input. *)

Lemma no_tcsetpgrp_refl w : no_tcsetpgrp w w.
Proof. exists []. split; [now rewrite app_nil_r | reflexivity]. Qed.

Lemma no_tcsetpgrp_trans a b c : no_tcsetpgrp a b -> no_tcsetpgrp b c -> no_tcsetpgrp a c.
Proof.
  intros [e1 [H1 N1]] [e2 [H2 N2]]. exists (e1 ++ e2). split.
  - now rewrite H2, H1, app_assoc.
  - now rewrite existsb_app, N1, N2.
Qed.

Lemma no_tcsetpgrp_silent w w' : trace w' = trace w -> no_tcsetpgrp w w'.
Proof. intro H. exists []. split; [now rewrite app_nil_r | reflexivity]. Qed.

Lemma no_tcsetpgrp_log e w : is_tcsetpgrp e = false -> no_tcsetpgrp w (log [e] w).
Proof. intro H. exists [e]. split; [reflexivity | simpl; now rewrite H]. Qed.

Lemma no_tcsetpgrp_emit e : is_tcsetpgrp e = false -> respects no_tcsetpgrp (emit e).
Proof. intros H w. now apply no_tcsetpgrp_log. Qed.

Lemma no_tcsetpgrp_sigprocmask how set : respects no_tcsetpgrp (sigprocmask how set).
Proof.
  unfold sigprocmask.
  apply respects_bind; [apply no_tcsetpgrp_trans | apply respects_gets, no_tcsetpgrp_refl|].
  intro old.
  apply respects_bind; [apply no_tcsetpgrp_trans | now apply no_tcsetpgrp_emit |].
  intros _.
  apply respects_bind; [apply no_tcsetpgrp_trans | | intros _;
                        apply respects_ret, no_tcsetpgrp_refl].
  apply respects_modify. intro w. now apply no_tcsetpgrp_silent.
Qed.

Lemma no_tcsetpgrp_wait_while cond mask : respects no_tcsetpgrp (wait_while cond mask).
Proof.
  apply respects_wait_while;
    first [ exact no_tcsetpgrp_refl
          | exact no_tcsetpgrp_trans
          | intros; now apply no_tcsetpgrp_silent
          | intros; now apply no_tcsetpgrp_log ].
Qed.

(** Whatever its argument and whatever happens while it waits, fg issues no
    call of tcsetpgrp. *)
Lemma builtinFg_never_calls_tcsetpgrp p : respects no_tcsetpgrp (builtinFg p).
Proof.
  pose proof no_tcsetpgrp_refl as Hrefl. pose proof no_tcsetpgrp_trans as Htrans.
  unfold builtinFg, first_command.
  apply respects_bind; [exact Htrans | | intro c].
  { destruct (commands p); [apply respects_halt | apply respects_ret]; exact Hrefl. }
  destruct (token c 0) as [arg|]; [|now apply respects_halt].
  destruct (String.eqb arg "0"); [now apply respects_halt|].
  destruct (atoi arg =? 0); [now apply respects_halt|].
  apply respects_bind; [exact Htrans | now apply respects_gets | intro jl].
  destruct (negb (JobList.containsJob (to_size_t (atoi arg)) jl)).
  { apply respects_bind; [exact Htrans | now apply no_tcsetpgrp_emit | intros _].
    now apply respects_halt. }
  apply respects_bind; [exact Htrans | apply no_tcsetpgrp_sigprocmask | intro mask].
  destruct (JobList.getJob (to_size_t (atoi arg)) jl) as [job|]; [|now apply respects_halt].
  apply respects_bind; [exact Htrans | | intros _].
  { destruct (JobList.isForeground job).
    - apply respects_forM; [exact Hrefl | exact Htrans |].
      intros proc w. now apply no_tcsetpgrp_log.
    - destruct (getProcesses job) as [|first others]; [now apply respects_ret|].
      apply respects_bind; [exact Htrans | | intros _].
      + apply respects_modify. intro w. now apply no_tcsetpgrp_silent.
      + intro w. now apply no_tcsetpgrp_log. }
  apply respects_bind; [exact Htrans | apply no_tcsetpgrp_wait_while | intros _].
  apply respects_bind; [exact Htrans | apply no_tcsetpgrp_sigprocmask | intros _].
  now apply respects_ret.
Qed.

(** ** The foreground invariant *)

Lemma foregroundCount_setProcessState id pid st jl :
  JobList.foregroundCount (JobList.update id (Job.setProcessState pid st) jl)
  = JobList.foregroundCount jl.
Proof.
  unfold JobList.foregroundCount, JobList.update.
  induction jl as [|j jl IH]; [reflexivity|]. cbn [map filter].
  replace (JobList.isForeground (if getNum j =? id then Job.setProcessState pid st j else j))
    with (JobList.isForeground j) by (destruct (getNum j =? id); reflexivity).
  destruct (JobList.isForeground j); simpl; now rewrite IH.
Qed.

Lemma foregroundCount_remove id jl :
  (JobList.foregroundCount (JobList.remove id jl) <= JobList.foregroundCount jl)%nat.
Proof.
  unfold JobList.foregroundCount, JobList.remove.
  induction jl as [|j jl IH]; [reflexivity|]. cbn [filter].
  destruct (negb (getNum j =? id)); cbn [filter];
    destruct (JobList.isForeground j); simpl; lia.
Qed.

Lemma foregroundCount_demote id jl :
  (JobList.foregroundCount (JobList.update id (Job.setState kBackground) jl)
   <= JobList.foregroundCount jl)%nat.
Proof.
  unfold JobList.foregroundCount, JobList.update.
  induction jl as [|j jl IH]; [reflexivity|]. cbn [map filter].
  destruct (getNum j =? id).
  - change (JobList.isForeground (Job.setState kBackground j)) with false.
    destruct (JobList.isForeground j); simpl; lia.
  - destruct (JobList.isForeground j); simpl; lia.
Qed.

Lemma foregroundCount_synchronize id jl :
  (JobList.foregroundCount (JobList.synchronize id jl) <= JobList.foregroundCount jl)%nat.
Proof.
  unfold JobList.synchronize.
  destruct (JobList.getJob id jl) as [j|]; [|reflexivity].
  destruct (Job.allTerminated j); [apply foregroundCount_remove|].
  destruct (JobList.isForeground j && negb (Job.anyRunning j));
    [apply foregroundCount_demote | reflexivity].
Qed.

(** No run of a signal handler raises the number of foreground jobs. *)
Lemma deliver_foreground_not_grown d : respects foreground_not_grown (deliver d).
Proof.
  apply respects_deliver; unfold foreground_not_grown; intros; simpl.
  - reflexivity.
  - lia.
  - now rewrite foregroundCount_setProcessState.
  - apply foregroundCount_synchronize.
  - reflexivity.
  - reflexivity.
Qed.

(** A new job raises the number of foreground jobs by one exactly when it
    is created Foreground, whatever the list holds already. *)
Lemma foregroundCount_insertJob j jl :
  JobList.foregroundCount (JobList.insertJob j jl)
  = ((if JobList.isForeground j then 1 else 0) + JobList.foregroundCount jl)%nat.
Proof.
  unfold JobList.foregroundCount.
  induction jl as [|k jl IH]; cbn [JobList.insertJob].
  - cbn [filter]. destruct (JobList.isForeground j); reflexivity.
  - destruct (getNum j <? getNum k); cbn [filter].
    + destruct (JobList.isForeground j); reflexivity.
    + destruct (JobList.isForeground k); cbn [List.length]; rewrite IH;
        destruct (JobList.isForeground j); simpl; lia.
Qed.

Lemma foregroundCount_addJob st jl :
  JobList.foregroundCount (snd (JobList.addJob st jl))
  = ((match st with kForeground => 1 | kBackground => 0 end)
     + JobList.foregroundCount jl)%nat.
Proof.
  unfold JobList.addJob. cbn [snd]. rewrite foregroundCount_insertJob.
  destruct st; reflexivity.
Qed.

(** C3, in [world_tcsetpgrp_refused].  The refused tcsetpgrp makes
    transferTerminalControl throw out of createJob before the wait, so job
    1 is still Foreground (and the signals still blocked) when the shell is
    back at the prompt.  A second foreground pipeline then adds job 2,
    Foreground as well, and the shell returns to the prompt with two jobs
    in the foreground.  Likewise, after a background launch of job 2, fg 2
    promotes it next to job 1 and the shell sleeps in sigsuspend with two
    jobs in the foreground. *)
Theorem two_foreground_jobs_reachable :
  (let r := main_loop 0 [Line (line "sleep" ["100"]); Line (line "sleep" ["200"])]
                      world_tcsetpgrp_refused in
   fst r = Done tt
   /\ map (fun j => (getNum j, getState j)) (joblist (snd r))
      = [(1, kForeground); (2, kForeground)]
   /\ JobList.foregroundCount (joblist (snd r)) = 2%nat)
  /\ (let r := main_loop 0 [Line (line "sleep" ["100"]); Line sleep_in_background;
                            Line (line "fg" ["2"])]
                         world_tcsetpgrp_refused in
      fst r = Halt Blocked
      /\ map (fun j => (getNum j, getState j)) (joblist (snd r))
         = [(1, kForeground); (2, kForeground)]
      /\ JobList.foregroundCount (joblist (snd r)) = 2%nat).
Proof. repeat split. Qed.

(** ** Pipe descriptors *)

(** C4, on the pipeline [three_stage], whose pipes are (3, 4) and (5, 6)
    and whose redirections are 7 and 8.  The first child needs none of 3, 4, 5, 6
    once its standard output is the copy of 4, yet it reaches execvp with
    both ends of the second pipe, 5 and 6, still open: its cleanup loop
    closes row 0 twice.  The parent, whatever index its cleanup reads,
    returns with a pipe descriptor still open and with both redirection
    descriptors still open. *)
Theorem createJob_leaks_descriptors :
  (let r := createJob 0 three_stage (with_forks [0] world0) in
   fst r = Halt Execed
   /\ fdtable (snd r) = [0; 1; 2; 5; 6; 8])
  /\ (forall stale_i,
        let r := createJob stale_i three_stage (with_forks [100; 101; 102] world0) in
        fst r = Done tt
        /\ (exists fd, In fd [3; 4; 5; 6] /\ In fd (fdtable (snd r)))
        /\ In 7 (fdtable (snd r)) /\ In 8 (fdtable (snd r))).
Proof.
  split; [split; reflexivity|].
  intros [|[|[|k]]]; (split; [reflexivity|]); split;
    try (split; vm_compute; tauto).
  - exists 5. vm_compute. tauto.
  - exists 3. vm_compute. tauto.
  - exists 3. vm_compute. tauto.
  - exists 3. vm_compute. tauto.
Qed.

(** * Further properties of stsh.cc *)

(** ** Sequencing *)

Lemma bind_Done_inv {A B} (c : M A) (k : A -> M B) w b w' :
  bind c k w = (Done b, w') ->
  exists a w1, c w = (Done a, w1) /\ k a w1 = (Done b, w').
Proof.
  unfold bind. destruct (c w) as [[a|s] w1]; [|discriminate].
  intro H. now exists a, w1.
Qed.

(** ** The dispatcher *)

Lemma find_index_none names name i :
  find_index names name i = None <-> ~ In name names.
Proof.
  revert i. induction names as [|n names IH]; intro i; simpl.
  - tauto.
  - destruct (String.eqb_spec n name) as [E | E].
    + split; [discriminate | intro H; exfalso; apply H; now left].
    + rewrite IH. tauto.
Qed.

Lemma handleBuiltin_not_builtin p c rest w :
  commands p = c :: rest ->
  ~ In (cmd_name c) kSupportedBuiltins ->
  handleBuiltin p w = (Done false, w).
Proof.
  intros Hc Hout. unfold handleBuiltin, first_command. rewrite Hc.
  unfold bind, ret. apply find_index_none with (i := 0%nat) in Hout. now rewrite Hout.
Qed.

(** handleBuiltin answers false exactly for the commands that are not in
    kSupportedBuiltins, and then it has done nothing at all: for a builtin
    it answers true or does not return. *)
Theorem handleBuiltin_false_iff p c rest w :
  commands p = c :: rest ->
  (fst (handleBuiltin p w) = Done false <-> ~ In (cmd_name c) kSupportedBuiltins)
  /\ (~ In (cmd_name c) kSupportedBuiltins -> handleBuiltin p w = (Done false, w)).
Proof.
  intro Hc. unfold handleBuiltin, first_command. rewrite Hc.
  unfold bind at 1 2 3, ret at 1 2 3.
  destruct (find_index kSupportedBuiltins (cmd_name c) 0) as [index|] eqn:E.
  - assert (Hin : In (cmd_name c) kSupportedBuiltins).
    { destruct (in_dec string_dec (cmd_name c) kSupportedBuiltins) as [H | H];
        [exact H|]. apply find_index_none with (i := 0%nat) in H. congruence. }
    split; [split|]; [| contradiction | contradiction].
    unfold bind.
    match goal with |- context [match ?body w with _ => _ end] =>
      destruct (body w) as [[[]|s] w1] end; simpl; discriminate.
  - unfold bind, ret. rewrite E. apply find_index_none in E. split; [split|]; auto.
Qed.

Lemma handleBuiltin_false_iff_witness :
  handleBuiltin (line "ls" ["-l"]) world_fg_pair = (Done false, world_fg_pair).
Proof.
  apply (handleBuiltin_false_iff (line "ls" ["-l"]) (mkCommand "ls" ["-l"]) []
           world_fg_pair eq_refl).
  simpl. intuition discriminate.
Defined.

(** slay, halt and cont without an argument fail with a usage line that
    names the builtin typed, and touch nothing. *)
Theorem signal_builtin_usage name sig p c rest w :
  In (name, sig) signal_builtins ->
  commands p = c :: rest ->
  cmd_name c = name ->
  tokens c = [] ->
  handleBuiltin p w
  = (Halt (Throw (STSHException ("Usage: " ++ name ++ " <jobid> <index> | <pid>."))), w).
Proof.
  intros Hin Hc Hname Ht.
  rewrite (handleBuiltin_signals name sig p c rest w Hin Hc Hname).
  apply bind_halt. unfold builtinSignals, first_command. rewrite Hc.
  unfold bind at 1, ret at 1, token. now rewrite Ht.
Qed.

Lemma signal_builtin_usage_witness :
  handleBuiltin (line "cont" []) world_fg_pair
  = (Halt (Throw (STSHException "Usage: cont <jobid> <index> | <pid>.")), world_fg_pair).
Proof.
  apply (signal_builtin_usage "cont" SIGCONT (line "cont" []) (mkCommand "cont" []) []
           world_fg_pair).
  - right; right; left; reflexivity.
  - reflexivity.
  - reflexivity.
  - reflexivity.
Defined.

(** ** The loop of main *)



(** ** SIGINT and SIGTSTP *)

(** The handler of SIGINT and SIGTSTP changes nothing but the log, and
    every call it logs is a kill of the delivered signal on a process of a
    Foreground job: with no job in the foreground nobody is signalled. *)
Theorem sigIntStopHandler_signals_foreground_only d w :
  d = Intr \/ d = Tstp ->
  exists evs,
    deliver d w = (Done tt, log evs w)
    /\ Forall (foreground_kill (signo d) (joblist w)) evs.
Proof.
  intro Hd.
  assert (Hrun : deliver d w = sigIntStopHandler (signo d) w)
    by (destruct Hd as [-> | ->]; reflexivity).
  rewrite Hrun. unfold sigIntStopHandler, bind at 1, gets at 1.
  destruct (JobList.hasForegroundJob (joblist w)) eqn:Hhas.
  - apply hasForegroundJob_get in Hhas. destruct Hhas as [job Hjob]. rewrite Hjob.
    exists (map (fun proc => Kill (getID proc) (signo d)) (getProcesses job)).
    split; [apply forM_kill|].
    apply find_some in Hjob. destruct Hjob as [Hin Hfg].
    apply Forall_forall. intros e He. apply in_map_iff in He.
    destruct He as [proc [<- Hproc]]. exists job, proc. repeat split; try assumption.
    unfold JobList.isForeground in Hfg. destruct (getState job); [reflexivity | discriminate].
  - exists []. split; [now rewrite log_nil | constructor].
Qed.

Lemma sigIntStopHandler_signals_foreground_only_witness :
  deliver Tstp world_bg_stopped = (Done tt, world_bg_stopped).
Proof.
  destruct (sigIntStopHandler_signals_foreground_only Tstp world_bg_stopped)
    as [evs [Hrun Hall]].
  - right; reflexivity.
  - rewrite Hrun. destruct evs as [|e evs]; [apply f_equal, log_nil|].
    exfalso. inversion Hall as [|? ? [job [proc [Hin [Hfg _]]]] _]; subst.
    destruct Hin as [<- | []]. discriminate.
Defined.

(** ** The reaper's failures *)





(** ** What the handlers change *)

Lemma same_processes_refl j : same_processes j j.
Proof. repeat split. Qed.

Lemma same_processes_trans a b c :
  same_processes a b -> same_processes b c -> same_processes a c.
Proof. intros [H1 [H2 H3]] [K1 [K2 K3]]. repeat split; congruence. Qed.

Lemma setProcessState_in_same pid st ps :
  map getID (Job.setProcessState_in pid st ps) = map getID ps
  /\ map getCommand (Job.setProcessState_in pid st ps) = map getCommand ps.
Proof.
  induction ps as [|q ps [IH1 IH2]]; [now split|]. cbn [Job.setProcessState_in].
  destruct (getID q =? pid); cbn [map]; [now split|]. now rewrite IH1, IH2.
Qed.

Lemma only_states_change_refl w : only_states_change w w.
Proof. repeat split. intros j' H. exists j'. split; [assumption | apply same_processes_refl]. Qed.

Lemma only_states_change_trans a b c :
  only_states_change a b -> only_states_change b c -> only_states_change a c.
Proof.
  intros [F1 [S1 [C1 [K1 J1]]]] [F2 [S2 [C2 [K2 J2]]]].
  repeat split; try congruence.
  intros j'' H. destruct (J2 j'' H) as [j' [H' P']]. destruct (J1 j' H') as [j [Hj P]].
  exists j. split; [assumption | eapply same_processes_trans; eassumption].
Qed.

Lemma only_states_change_log evs w : only_states_change w (log evs w).
Proof. exact (only_states_change_refl w). Qed.

Lemma only_states_change_setProcessState id pid st w :
  only_states_change w
    (set_joblist (JobList.update id (Job.setProcessState pid st) (joblist w)) w).
Proof.
  repeat split. cbn [joblist set_joblist]. intros j' H.
  unfold JobList.update in H. apply in_map_iff in H. destruct H as [j [<- Hj]].
  exists j. split; [assumption|].
  destruct (getNum j =? id); [|apply same_processes_refl].
  destruct (setProcessState_in_same pid st (getProcesses j)) as [H1 H2].
  repeat split; assumption.
Qed.

Lemma only_states_change_synchronize id w :
  only_states_change w (set_joblist (JobList.synchronize id (joblist w)) w).
Proof.
  repeat split. cbn [joblist set_joblist]. intros j' H.
  unfold JobList.synchronize in H.
  destruct (JobList.getJob id (joblist w)) as [j0|];
    [|exists j'; split; [assumption | apply same_processes_refl]].
  destruct (Job.allTerminated j0).
  { unfold JobList.remove in H. apply filter_In in H.
    exists j'. split; [tauto | apply same_processes_refl]. }
  destruct (JobList.isForeground j0 && negb (Job.anyRunning j0));
    [|exists j'; split; [assumption | apply same_processes_refl]].
  unfold JobList.update in H. apply in_map_iff in H. destruct H as [j [<- Hj]].
  exists j. split; [assumption|].
  destruct (getNum j =? id); repeat split.
Qed.

(** A run of a signal handler never opens or closes a descriptor, never
    touches the signal mask or the kernel's scripts, and never creates a
    job or adds, drops or reorders the processes of a job it keeps: all it
    changes are run states, scheduling classes, and which jobs are left. *)
Theorem deliver_only_states_change d : respects only_states_change (deliver d).
Proof.
  apply respects_deliver.
  - exact only_states_change_refl.
  - exact only_states_change_trans.
  - exact only_states_change_setProcessState.
  - exact only_states_change_synchronize.
  - intros. apply only_states_change_log.
  - intros. apply only_states_change_log.
Qed.

(** ** What fg leaves behind *)

Lemma sigprocmask_eq how set w :
  sigprocmask how set w
  = (Done (sigmask w),
     set_sigmask (if how =? SIG_BLOCK
                  then fold_left sigaddset set (sigmask w)
                  else unblocked set (sigmask w))
                 (log [Sigprocmask how set] w)).
Proof. reflexivity. Qed.

Lemma wait_rounds_done cond mask n w w' :
  wait_rounds cond mask n w = (Done tt, w') -> cond (joblist w') = false.
Proof.
  revert w. induction n as [|n IH]; intro w; cbn [wait_rounds];
    unfold bind at 1, gets at 1; destruct (cond (joblist w)) eqn:E.
  - discriminate.
  - intro H. inversion H; subst. exact E.
  - intro H. apply bind_Done_inv in H. destruct H as [[] [w1 [_ H]]]. now apply IH in H.
  - intro H. inversion H; subst. exact E.
Qed.

Lemma wait_while_done cond mask w w' :
  wait_while cond mask w = (Done tt, w') -> cond (joblist w') = false.
Proof. unfold wait_while, bind at 1, gets at 1. apply wait_rounds_done. Qed.

Lemma same_sigmask_wait_while cond mask : respects same_sigmask (wait_while cond mask).
Proof.
  apply respects_wait_while; unfold same_sigmask; try reflexivity.
  intros a b c H1 H2. congruence.
Qed.

Lemma mem_sigaddset s set x : mem s (sigaddset set x) = mem s set || (s =? x).
Proof.
  unfold sigaddset. destruct (mem x set) eqn:E.
  - destruct (Z.eqb_spec s x) as [-> | _]; [now rewrite E | now rewrite orb_false_r].
  - unfold mem. rewrite existsb_app. simpl. now rewrite orb_false_r.
Qed.

Lemma unblocked_sigaddset set mask x :
  mem x set = true -> unblocked set (sigaddset mask x) = unblocked set mask.
Proof.
  intro H. unfold sigaddset, unblocked. destruct (mem x mask); [reflexivity|].
  rewrite filter_app. simpl. rewrite H. simpl. apply app_nil_r.
Qed.

Lemma unblocked_fold set adds mask :
  (forall x, In x adds -> mem x set = true) ->
  unblocked set (fold_left sigaddset adds mask) = unblocked set mask.
Proof.
  revert mask. induction adds as [|x adds IH]; intros mask H; [reflexivity|].
  cbn [fold_left]. rewrite IH by (intros y Hy; apply H; now right).
  apply unblocked_sigaddset, H. now left.
Qed.

(** What a normal return of fg went through: the block, the wait with the
    mask that was in force before, the unblock. *)
Lemma builtinFg_done p w w' :
  builtinFg p w = (Done tt, w') ->
  exists w2 w3,
    sigmask w2 = fold_left sigaddset fg_additions (sigmask w)
    /\ wait_while JobList.hasForegroundJob (sigmask w) w2 = (Done tt, w3)
    /\ w' = set_sigmask (unblocked fg_additions (sigmask w3))
                        (log [Sigprocmask SIG_UNBLOCK fg_additions] w3).
Proof.
  unfold builtinFg, first_command. intro H.
  apply bind_Done_inv in H. destruct H as [c [w1 [Hc H]]].
  destruct (commands p) as [|c0 rest]; [discriminate|]. inversion Hc; subst c0 w1.
  destruct (token c 0) as [arg|]; [|discriminate].
  destruct (String.eqb arg "0"); [discriminate|].
  destruct (atoi arg =? 0); [discriminate|].
  unfold bind at 1, gets at 1 in H.
  destruct (negb (JobList.containsJob (to_size_t (atoi arg)) (joblist w))).
  { apply bind_Done_inv in H. destruct H as [? [? [_ H]]]. discriminate. }
  rewrite (bind_done _ _ _ _ _ (sigprocmask_eq _ _ _)) in H.
  destruct (JobList.getJob (to_size_t (atoi arg)) (joblist w)) as [job|]; [|discriminate].
  apply bind_Done_inv in H. destruct H as [[] [w2 [Hresume H]]].
  apply bind_Done_inv in H. destruct H as [[] [w3 [Hwait H]]].
  rewrite (bind_done _ _ _ _ _ (sigprocmask_eq _ _ _)) in H.
  inversion H; subst w'. exists w2, w3. repeat split; [|exact Hwait].
  destruct (JobList.isForeground job).
  - rewrite forM_kill in Hresume. inversion Hresume; subst w2. reflexivity.
  - destruct (getProcesses job) as [|first others]; inversion Hresume; subst w2; reflexivity.
Qed.

(** When fg returns, no job is in the foreground. *)
Theorem builtinFg_returns_idle p w w' :
  builtinFg p w = (Done tt, w') -> JobList.hasForegroundJob (joblist w') = false.
Proof.
  intro H. apply builtinFg_done in H. destruct H as [w2 [w3 [_ [Hwait ->]]]].
  apply wait_while_done in Hwait. exact Hwait.
Qed.

(** When fg returns, SIGINT, SIGTSTP, SIGCONT and SIGCHLD are unblocked,
    also those that were blocked when it was called: the mask it leaves is
    the mask it found less these four. *)
Theorem builtinFg_returns_unblocked p w w' :
  builtinFg p w = (Done tt, w') -> sigmask w' = unblocked fg_additions (sigmask w).
Proof.
  intro H. apply builtinFg_done in H. destruct H as [w2 [w3 [Hmask [Hwait ->]]]].
  pose proof (same_sigmask_wait_while JobList.hasForegroundJob (sigmask w) w2) as Hsame.
  rewrite Hwait in Hsame. unfold same_sigmask in Hsame. cbn [snd] in Hsame.
  cbn [sigmask set_sigmask]. rewrite Hsame, Hmask.
  apply unblocked_fold. intros x Hx. vm_compute in Hx.
  destruct Hx as [<- | [<- | [<- | [<- | []]]]]; reflexivity.
Qed.

Lemma builtinFg_returns_idle_witness :
  JobList.hasForegroundJob (joblist (snd (builtinFg (line "fg" ["1"]) world_fg_resume)))
  = false.
Proof.
  apply (builtinFg_returns_idle (line "fg" ["1"]) world_fg_resume).
  vm_compute. reflexivity.
Defined.

Lemma builtinFg_returns_unblocked_witness :
  sigmask (snd (builtinFg (line "fg" ["1"])
                          (set_sigmask [SIGINT; SIGQUIT] world_fg_resume)))
  = [SIGQUIT].
Proof.
  apply (builtinFg_returns_unblocked (line "fg" ["1"])
           (set_sigmask [SIGINT; SIGQUIT] world_fg_resume)).
  vm_compute. reflexivity.
Defined.

(** ** What the launcher leaves alone *)

Lemma respects_repeatM R (R_refl : forall w, R w w)
      (R_trans : forall a b c, R a b -> R b c -> R a c) n body :
  respects R body -> respects R (repeatM n body).
Proof.
  intro H. induction n as [|n IH]; simpl.
  - now apply respects_ret.
  - apply respects_bind; [exact R_trans | exact H | intros _; exact IH].
Qed.

Section LauncherFrame.
Variable R : World -> World -> Prop.
Hypothesis R_refl : forall w, R w w.
Hypothesis R_trans : forall a b c, R a b -> R b c -> R a c.
Hypothesis R_joblist : forall jl w, R w (set_joblist jl w).
Hypothesis R_fdtable : forall t w, R w (set_fdtable t w).
Hypothesis R_in_child : forall b w, R w (set_in_child b w).
Hypothesis R_forks : forall l w, R w (set_kernel (set_forks l (kernel w)) w).
Hypothesis R_opens : forall l w, R w (set_kernel (set_opens l (kernel w)) w).
Hypothesis R_execs : forall l w, R w (set_kernel (set_execs l (kernel w)) w).
Hypothesis R_tcsetpgrps : forall l w, R w (set_kernel (set_tcsetpgrps l (kernel w)) w).
Hypothesis R_launch_event : forall e w, launch_event e = true -> R w (log [e] w).

Ltac leaf :=
  first [ apply R_joblist | apply R_fdtable | apply R_in_child | apply R_forks
        | apply R_opens | apply R_execs | apply R_tcsetpgrps
        | apply R_launch_event; reflexivity ].

Ltac frame_with known :=
  repeat
    first
      [ known
      | apply (respects_ret R R_refl)
      | apply (respects_halt R R_refl)
      | apply (respects_gets R R_refl)
      | apply (respects_when R R_refl)
      | apply (respects_forM R R_refl R_trans); intro
      | apply (respects_repeatM R R_refl R_trans)
      | apply (respects_bind R R_trans); [ | intro ]
      | apply respects_modify; intro; leaf
      | match goal with
        | |- respects _ (match ?x with _ => _ end) => destruct x
        end
      | progress unfold emit, throw, update_joblist, close, dup2, pipe, open, fork, execvp,
          tcsetpgrp, setpgid_self, transferTerminalControl, close_rd, close_wr,
          fds_rd, fds_wr ].

Ltac frame := frame_with ltac:(fail).

Lemma respects_make_pipes n : respects R (make_pipes n).
Proof. induction n as [|n IH]; cbn [make_pipes]; frame_with ltac:(exact IH). Qed.

Lemma respects_child_body p fds inputfd outputfd i groupid c :
  respects R (child_body p fds inputfd outputfd i groupid c).
Proof. unfold child_body. frame. Qed.

Lemma respects_fork_all p job fds inputfd outputfd cmds :
  forall i groupid, respects R (fork_all p job fds inputfd outputfd cmds i groupid).
Proof.
  induction cmds as [|c rest IH]; intros i groupid; cbn [fork_all];
    frame_with ltac:(apply IH).
Qed.

Lemma respects_transferTerminalControl pgid : respects R (transferTerminalControl pgid).
Proof. frame. Qed.

Lemma respects_createJob_background stale_i p :
  background p = true -> respects R (createJob stale_i p).
Proof.
  intro Hbg. unfold createJob. rewrite Hbg. cbn [negb].
  destruct (commands p) as [|c0 cs]; [frame|].
  apply (respects_bind R R_trans); [frame | intro jl].
  destruct (JobList.addJob kBackground jl) as [job jl'].
  frame_with ltac:(first [apply respects_make_pipes | apply respects_fork_all]).
Qed.

(** The wait for a foreground job. *)
Hypothesis R_sigmask : forall m w, R w (set_sigmask m w).
Hypothesis R_arrivals : forall l w, R w (set_kernel (set_arrivals l (kernel w)) w).
Hypothesis R_wait_event : forall e w, wait_event e = true -> R w (log [e] w).

Lemma respects_launcher_wait cond mask : respects R (wait_while cond mask).
Proof.
  apply (respects_wait_while R R_refl R_trans);
    first [ intros; apply R_joblist
          | intros; apply R_wait_event; reflexivity
          | exact R_arrivals ].
Qed.

Lemma respects_sigprocmask how set : respects R (sigprocmask how set).
Proof.
  unfold sigprocmask. frame.
  - intro w. apply R_wait_event. reflexivity.
  - apply respects_modify. intro w. apply R_sigmask.
Qed.

Lemma respects_createJob stale_i p : respects R (createJob stale_i p).
Proof.
  destruct (background p) eqn:Hbg; [now apply respects_createJob_background|].
  unfold createJob. rewrite Hbg. cbn [negb].
  destruct (commands p) as [|c0 cs]; [frame|].
  apply (respects_bind R R_trans); [frame | intro jl].
  destruct (JobList.addJob kForeground jl) as [job jl'].
  frame_with ltac:(first [ apply respects_make_pipes | apply respects_fork_all
                         | apply respects_sigprocmask | apply respects_launcher_wait ]).
Qed.
End LauncherFrame.

Lemma launches_only_refl w : launches_only w w.
Proof. split; [reflexivity|]. exists []. split; [now rewrite app_nil_r | reflexivity]. Qed.

Lemma launches_only_trans a b c : launches_only a b -> launches_only b c -> launches_only a c.
Proof.
  intros [S1 [e1 [H1 N1]]] [S2 [e2 [H2 N2]]]. split; [congruence|].
  exists (e1 ++ e2). split.
  - now rewrite H2, H1, app_assoc.
  - now rewrite forallb_app, N1, N2.
Qed.

Lemma launches_only_silent w w' :
  sigmask w' = sigmask w -> trace w' = trace w -> launches_only w w'.
Proof.
  intros Hs Ht. split; [exact Hs|]. exists []. split; [now rewrite app_nil_r | reflexivity].
Qed.

(** A background launch never blocks or unblocks a signal, never sleeps in
    sigsuspend, never reaps and never signals a process: the signal mask is
    as it was, and all it logs are the calls that create and wire the
    processes, the notice it prints and the tcsetpgrp of the hand-back. *)
Theorem createJob_background_launches_only stale_i p :
  background p = true -> respects launches_only (createJob stale_i p).
Proof.
  intro Hbg. apply respects_createJob_background; try exact Hbg;
    first [ exact launches_only_refl
          | exact launches_only_trans
          | intros; now apply launches_only_silent
          | intros e w He; split; [reflexivity|]; exists [e]; split;
            [reflexivity | simpl; now rewrite He] ].
Qed.

Lemma createJob_background_launches_only_witness :
  launches_only (with_forks [100; 101; 102] world0)
                (snd (createJob 0 three_stage (with_forks [100; 101; 102] world0))).
Proof.
  apply (createJob_background_launches_only 0 three_stage).
  reflexivity.
Defined.

Lemma same_shell_pgid_createJob stale_i p : respects same_shell_pgid (createJob stale_i p).
Proof.
  apply respects_createJob; unfold same_shell_pgid; intros; try reflexivity.
  congruence.
Qed.

Lemma transferTerminalControl_world pgid w :
  snd (transferTerminalControl pgid w) = log [Tcsetpgrp STDIN_FILENO pgid] (tc_consumed w).
Proof.
  unfold transferTerminalControl. rewrite (bind_done _ _ _ _ _ (tcsetpgrp_eq _ _ _)).
  destruct (tc_answer w) as [err errno].
  destruct ((err =? -1) && negb (errno =? ENOTTY)); reflexivity.
Qed.

(** ** What a launch that returns has done *)

Ltac peel H a w1 Hs :=
  apply bind_Done_inv in H; destruct H as (a & w1 & Hs & H); cbv beta in H.

(** The end of a launch that returns: the hand-back of the terminal is its
    last call, and a foreground launch has waited until its job was no
    longer the foreground job. *)
Lemma createJob_done stale_i p w w' :
  createJob stale_i p w = (Done tt, w') ->
  exists w8,
    w' = log [Tcsetpgrp STDIN_FILENO (shell_pgid (kernel w8))] (tc_consumed w8)
    /\ (background p = false ->
        forall fg, JobList.getForegroundJob (joblist w8) = Some fg ->
                   getNum fg <> JobList.freshId (joblist w)).
Proof.
  intro H. unfold createJob in H.
  destruct (commands p) as [|c0 cs] eqn:Hc; [discriminate|].
  peel H jl w0 Hjl. inversion Hjl; subst jl w0. clear Hjl.
  destruct (JobList.addJob (if background p then kBackground else kForeground) (joblist w))
    as [job jl'] eqn:Hadd.
  assert (Hjob : job = JobList.freshId (joblist w)) by (inversion Hadd; reflexivity).
  peel H u1 w1 Hupdate. peel H fds w2 Hpipes. peel H inputfd w3 Hinput.
  peel H outputfd w4 Houtput. peel H groupid w5 Hforks. peel H u6 w6 Hloop.
  peel H u7 w7 Hclose. peel H u8 w8 Hbranch. peel H pgid w9 Hpgid.
  inversion Hpgid; subst pgid w9. clear Hpgid.
  exists w8. split.
  { rewrite <- transferTerminalControl_world. now rewrite H. }
  intros Hbg fg Hfg. rewrite Hbg in Hbranch. cbn [negb] in Hbranch.
  rewrite (bind_done _ _ _ _ _ (sigprocmask_eq _ _ _)) in Hbranch.
  peel Hbranch jl2 wa Hget. peel Hbranch ub wb Hhand. peel Hbranch uc wc Hwait.
  rewrite (bind_done _ _ _ _ _ (sigprocmask_eq _ _ _)) in Hbranch.
  inversion Hbranch; subst w8. clear Hbranch.
  destruct uc. apply wait_while_done in Hwait.
  cbn [joblist set_sigmask log set_trace] in Hfg.
  rewrite Hfg in Hwait.
  assert (Hhas : JobList.hasForegroundJob (joblist wc) = true)
    by (apply hasForegroundJob_get; eauto).
  rewrite Hhas in Hwait. cbn [andb] in Hwait. apply Z.eqb_neq in Hwait. congruence.
Qed.

(** When a foreground launch returns, the job it launched is not the
    foreground job any more. *)
Theorem createJob_foreground_returns stale_i p w w' :
  background p = false ->
  createJob stale_i p w = (Done tt, w') ->
  forall fg, JobList.getForegroundJob (joblist w') = Some fg ->
             getNum fg <> JobList.freshId (joblist w).
Proof.
  intros Hbg H. apply createJob_done in H. destruct H as [w8 [-> Hfg]].
  exact (Hfg Hbg).
Qed.

Lemma createJob_foreground_returns_witness :
  background (line "sleep" ["100"]) = false
  /\ forall fg,
       JobList.getForegroundJob
         (joblist (snd (createJob 0 (line "sleep" ["100"])
                          (with_arrivals [Chld [(100, 4991)]] (with_forks [100] world0)))))
       = Some fg ->
       getNum fg <> 1.
Proof.
  split; [reflexivity|].
  apply (createJob_foreground_returns 0 (line "sleep" ["100"])
           (with_arrivals [Chld [(100, 4991)]] (with_forks [100] world0))).
  - reflexivity.
  - vm_compute. reflexivity.
Defined.

(** Every launch that returns ends by handing the terminal back to the
    group of the shell: its last call is tcsetpgrp(STDIN_FILENO,
    getpgid(getpid())). *)
Theorem createJob_hands_terminal_back stale_i p w w' :
  createJob stale_i p w = (Done tt, w') ->
  exists evs, trace w' = evs ++ [Tcsetpgrp STDIN_FILENO (shell_pgid (kernel w))].
Proof.
  intro H. pose proof (same_shell_pgid_createJob stale_i p w) as Hpgid.
  rewrite H in Hpgid. unfold same_shell_pgid in Hpgid. cbn [snd] in Hpgid.
  apply createJob_done in H. destruct H as [w8 [-> _]].
  exists (trace w8). rewrite <- Hpgid. reflexivity.
Qed.

Lemma createJob_hands_terminal_back_witness :
  exists evs,
    trace (snd (createJob 0 three_stage (with_forks [100; 101; 102] world0)))
    = evs ++ [Tcsetpgrp STDIN_FILENO 50].
Proof.
  apply (createJob_hands_terminal_back 0 three_stage (with_forks [100; 101; 102] world0)
           (snd (createJob 0 three_stage (with_forks [100; 101; 102] world0)))).
  vm_compute. reflexivity.
Defined.

(** ** A forked child *)

Lemma returns_ret R (R_refl : forall w, R w w) {A} (a : A) : returns R (ret a).
Proof. intro w. exists a, w. split; [reflexivity | apply R_refl]. Qed.

Lemma returns_gets R (R_refl : forall w, R w w) {A} (f : World -> A) : returns R (gets f).
Proof. intro w. exists (f w), w. split; [reflexivity | apply R_refl]. Qed.

Lemma returns_modify R f : (forall w, R w (f w)) -> returns R (modify f).
Proof. intros H w. exists tt, (f w). split; [reflexivity | apply H]. Qed.

Lemma returns_bind R (R_trans : forall a b c, R a b -> R b c -> R a c)
      {A B} (c : M A) (k : A -> M B) :
  returns R c -> (forall a, returns R (k a)) -> returns R (bind c k).
Proof.
  intros Hc Hk w. destruct (Hc w) as [a [w1 [E1 R1]]].
  destruct (Hk a w1) as [b [w2 [E2 R2]]]. exists b, w2. split.
  - now rewrite (bind_done _ _ _ _ _ E1).
  - eapply R_trans; eassumption.
Qed.

Lemma returns_repeatM R (R_refl : forall w, R w w)
      (R_trans : forall a b c, R a b -> R b c -> R a c) n body :
  returns R body -> returns R (repeatM n body).
Proof.
  intro H. induction n as [|n IH]; simpl.
  - now apply returns_ret.
  - apply returns_bind; [exact R_trans | exact H | intros _; exact IH].
Qed.

(** One step of a sequence whose head always returns. *)
Lemma returns_step R {A B} (c : M A) (k : A -> M B) w :
  returns R c -> exists a w1, R w w1 /\ bind c k w = k a w1.
Proof.
  intro H. destruct (H w) as [a [w1 [E R1]]]. exists a, w1.
  split; [exact R1 | now apply bind_done].
Qed.

Lemma wiring_frame_refl w : wiring_frame w w.
Proof. repeat split. Qed.

Lemma wiring_frame_trans a b c : wiring_frame a b -> wiring_frame b c -> wiring_frame a c.
Proof. intros [A1 [A2 [A3 A4]]] [B1 [B2 [B3 B4]]]. repeat split; congruence. Qed.

Ltac wiring :=
  repeat
    first
      [ apply (returns_ret wiring_frame wiring_frame_refl)
      | apply (returns_gets wiring_frame wiring_frame_refl)
      | apply (returns_bind wiring_frame wiring_frame_trans); [ | intro ]
      | apply (returns_repeatM wiring_frame wiring_frame_refl wiring_frame_trans)
      | apply returns_modify; intro; repeat split
      | match goal with
        | |- returns _ (match ?x with _ => _ end) => destruct x
        end
      | progress unfold emit, close, dup2, pipe, open, setpgid_self, close_rd, close_wr,
          fds_rd, fds_wr ].

Lemma returns_make_pipes n : returns wiring_frame (make_pipes n).
Proof. induction n as [|n IH]; cbn [make_pipes]; wiring. exact IH. Qed.

Lemma returns_open path flags : returns wiring_frame (open path flags).
Proof. wiring. Qed.

Lemma execvp_eq argv w :
  exists w', in_child w' = in_child w
             /\ (execvp argv w = (Halt Execed, w') \/ execvp argv w = (Done (-1), w')).
Proof.
  unfold execvp, bind, gets, modify, emit.
  destruct (execs (kernel w)) as [|[] l]; eexists;
    (split; [|first [left; reflexivity | right; reflexivity]]); reflexivity.
Qed.

Ltac wiring_step :=
  match goal with
  | |- context [bind ?c ?k ?w] =>
      let H := fresh "Hret" in
      assert (H : returns wiring_frame c) by wiring;
      let a := fresh "a" in
      let w1 := fresh "w" in
      let Hw := fresh "Hframe" in
      destruct (returns_step wiring_frame c k w H) as (a & w1 & Hw & ->); clear H
  end.

(** Between fork and exec a child only wires descriptors; then it is
    replaced by the program, or throws that the command was not found. *)
Lemma child_body_halts p fds inputfd outputfd i groupid c w :
  exists s w',
    child_body p fds inputfd outputfd i groupid c w = (Halt s, w')
    /\ in_child w' = in_child w
    /\ (s = Execed \/ s = Throw (command_not_found c)).
Proof.
  unfold child_body. do 4 wiring_step.
  destruct Hframe as [_ [H1 _]], Hframe0 as [_ [H2 _]], Hframe1 as [_ [H3 _]],
           Hframe2 as [_ [H4 _]].
  destruct (execvp_eq (cmd_name c :: firstn (S kMaxArguments) (tokens c)) w3)
    as [w' [Hin [E | E]]].
  - exists Execed, w'. rewrite (bind_halt _ _ _ _ _ E). repeat split; [congruence | now left].
  - exists (Throw (command_not_found c)), w'. rewrite (bind_done _ _ _ _ _ E).
    repeat split; [congruence | now right].
Qed.

Lemma fork_eq w :
  exists pid w',
    fork w = (Done pid, w')
    /\ pid = match forks (kernel w) with [] => -1 | x :: _ => x end
    /\ forks (kernel w') = tl (forks (kernel w))
    /\ execs (kernel w') = execs (kernel w)
    /\ joblist w' = joblist w
    /\ in_child w' = (if pid =? 0 then true else in_child w).
Proof.
  unfold fork, bind, gets, modify, emit, ret.
  destruct (match forks (kernel w) with [] => -1 | x :: _ => x end =? 0) eqn:E;
    eexists; eexists; (split; [reflexivity|]); rewrite ?E; repeat split.
Qed.

(** If one of the forks of the loop answers 0, the loop does not return:
    the process it runs in is a child from then on and ends at its exec. *)
Lemma fork_all_child p job fds inputfd outputfd cmds :
  forall i groupid w k,
    (k < List.length cmds)%nat ->
    nth_error (forks (kernel w)) k = Some 0 ->
    exists s w',
      fork_all p job fds inputfd outputfd cmds i groupid w = (Halt s, w')
      /\ in_child w' = true /\ child_end cmds s.
Proof.
  induction cmds as [|c rest IH]; intros i groupid w k Hk Hnth; [simpl in Hk; lia|].
  cbn [fork_all].
  destruct (fork_eq w) as [pid [w1 [Efork [Hpid [Hforks [_ [_ Hchild]]]]]]].
  rewrite (bind_done _ _ _ _ _ Efork).
  unfold update_joblist at 1, bind at 1, modify at 1.
  destruct (Z.eqb_spec pid 0) as [Hz | Hnz].
  - unfold when, bind.
    destruct (child_body_halts p fds inputfd outputfd i (if (i =? 0)%nat then pid else groupid)
                c (set_joblist
                     (JobList.update job (Job.addProcess (Process.create pid c)) (joblist w1))
                     w1))
      as [s [w' [E [Hin Hend]]]].
    rewrite E. exists s, w'. split; [reflexivity|]. split.
    + rewrite Hin. exact Hchild.
    + destruct Hend as [-> | ->]; [now left | right; exists c; split; [now left | reflexivity]].
  - unfold when, bind at 1, ret at 1.
    destruct k as [|k].
    { destruct (forks (kernel w)) as [|x l]; [discriminate|]. simpl in Hnth.
      inversion Hnth; subst x. contradiction. }
    destruct (IH (S i) (if (i =? 0)%nat then pid else groupid)
                 (set_joblist
                    (JobList.update job (Job.addProcess (Process.create pid c)) (joblist w1))
                    w1) k) as [s [w' [E [Hin Hend]]]].
    + simpl in Hk. lia.
    + cbn [kernel set_joblist]. rewrite Hforks.
      destruct (forks (kernel w)); [discriminate | exact Hnth].
    + exists s, w'. split; [exact E|]. split; [exact Hin|].
      destruct Hend as [-> | [c' [Hc' ->]]]; [now left | right; exists c'; split; [now right | reflexivity]].
Qed.

Ltac launch_step :=
  match goal with
  | |- context [bind ?c ?k ?w] =>
      let H := fresh "Hret" in
      assert (H : returns wiring_frame c)
        by first [ apply returns_make_pipes | wiring ];
      let a := fresh "a" in
      let w1 := fresh "w" in
      let Hw := fresh "Hframe" in
      destruct (returns_step wiring_frame c k w H) as (a & w1 & Hw & ->); clear H
  end.

Lemma createJob_child stale_i p w k :
  (k < List.length (commands p))%nat ->
  nth_error (forks (kernel w)) k = Some 0 ->
  exists s w',
    createJob stale_i p w = (Halt s, w')
    /\ in_child w' = true /\ child_end (commands p) s.
Proof.
  intros Hk Hnth. unfold createJob.
  destruct (commands p) as [|c0 cs] eqn:Hc; [simpl in Hk; lia|].
  unfold bind at 1, gets at 1.
  destruct (JobList.addJob (if background p then kBackground else kForeground) (joblist w))
    as [job jl'].
  unfold update_joblist at 1, bind at 1, modify at 1.
  do 3 launch_step.
  destruct Hframe as [_ [_ [F1 _]]], Hframe0 as [_ [_ [F2 _]]], Hframe1 as [_ [_ [F3 _]]].
  destruct (fork_all_child p job a a0 a1 (c0 :: cs) 0%nat 0 w2 k Hk) as [s [w' [E H]]].
  - rewrite F3, F2, F1. exact Hnth.
  - exists s, w'. split; [now apply bind_halt | exact H].
Qed.

(** A process that fork answered 0 to never comes back to the prompt: the
    round of main it is in ends with the process replaced by its program
    or, when execvp fails, with the diagnostic of that command on cerr and
    exit(0). *)
Theorem child_never_returns stale_i p c rest w k :
  commands p = c :: rest ->
  ~ In (cmd_name c) kSupportedBuiltins ->
  (k < List.length (commands p))%nat ->
  nth_error (forks (kernel w)) k = Some 0 ->
  exists w',
    main_step stale_i p w = (Halt Execed, w')
    \/ (main_step stale_i p w = (Halt (Exit 0), w')
        /\ exists c' evs, In c' (commands p)
                          /\ trace w' = evs ++ [Cerr (command_not_found c')]).
Proof.
  intros Hc Hout Hk Hnth. unfold main_step.
  rewrite (bind_done _ _ _ _ _ (handleBuiltin_not_builtin p c rest w Hc Hout)).
  cbn [negb when].
  destruct (createJob_child stale_i p w k Hk Hnth) as [s [w' [E [Hin Hend]]]].
  rewrite E. destruct Hend as [-> | [c' [Hc' ->]]].
  - exists w'. now left.
  - exists (log [Cerr (command_not_found c')] w'). right.
    unfold bind, emit, modify. rewrite Hin. split; [reflexivity|].
    exists c', (trace w'). split; [exact Hc' | reflexivity].
Qed.

Lemma child_never_returns_witness :
  exists w',
    main_step 0 (mkPipeline [mkCommand "ls" []; mkCommand "nosuch" []] "" "" false)
              (set_kernel (mkKernel [100; 0] [] [false] [] [] 50 (-7)) world0)
    = (Halt (Exit 0), w')
    /\ exists c' evs, In c' [mkCommand "ls" []; mkCommand "nosuch" []]
                      /\ trace w' = evs ++ [Cerr (command_not_found c')].
Proof.
  destruct (child_never_returns 0
              (mkPipeline [mkCommand "ls" []; mkCommand "nosuch" []] "" "" false)
              (mkCommand "ls" []) [mkCommand "nosuch" []]
              (set_kernel (mkKernel [100; 0] [] [false] [] [] 50 (-7)) world0) 1)
    as [w' [H | H]].
  - reflexivity.
  - simpl. intuition discriminate.
  - simpl. lia.
  - reflexivity.
  - vm_compute in H. discriminate.
  - exists w'. exact H.
Defined.

(** ** The job a launch registers *)

Lemma update_addProcesses_nil job jl : JobList.update job (addProcesses []) jl = jl.
Proof.
  unfold JobList.update. induction jl as [|j jl IH]; [reflexivity|]. cbn [map].
  rewrite IH. f_equal. destruct (getNum j =? job); [|reflexivity].
  destruct j. unfold addProcesses. simpl. now rewrite app_nil_r.
Qed.

Lemma update_addProcess job x ps jl :
  JobList.update job (addProcesses ps) (JobList.update job (Job.addProcess x) jl)
  = JobList.update job (addProcesses (x :: ps)) jl.
Proof.
  unfold JobList.update. rewrite map_map. apply map_ext. intro j.
  destruct (getNum j =? job) eqn:E; [|now rewrite E].
  cbn [Job.addProcess getNum]. rewrite E. unfold addProcesses. simpl.
  now rewrite <- app_assoc.
Qed.

(** In the parent, where no fork answers 0, the loop returns after one
    fork per command, with each pid added to the job. *)
Lemma fork_all_parent p job fds inputfd outputfd cmds :
  forall pids more i groupid w,
    List.length pids = List.length cmds ->
    Forall (fun pid => pid <> 0) pids ->
    forks (kernel w) = pids ++ more ->
    exists gid w',
      fork_all p job fds inputfd outputfd cmds i groupid w = (Done gid, w')
      /\ joblist w'
         = JobList.update job (addProcesses (registered pids cmds)) (joblist w).
Proof.
  induction cmds as [|c rest IH]; intros pids more i groupid w Hlen Hnz Hforks.
  - destruct pids; [|discriminate]. exists groupid, w. split; [reflexivity|].
    symmetry. apply update_addProcesses_nil.
  - destruct pids as [|pid pids]; [discriminate|]. cbn [fork_all].
    destruct (fork_eq w) as [pid' [w1 [Efork [Hpid [Hrest [_ [Hjl _]]]]]]].
    rewrite Hforks in Hpid, Hrest. cbn [app tl] in Hpid, Hrest. subst pid'.
    rewrite (bind_done _ _ _ _ _ Efork).
    unfold update_joblist at 1, bind at 1, modify at 1.
    inversion Hnz as [|? ? Hpid Hnz']; subst.
    assert (E : (pid =? 0) = false) by now apply Z.eqb_neq. rewrite E.
    unfold when, bind at 1, ret at 1.
    destruct (IH pids more (S i) (if (i =? 0)%nat then pid else groupid)
                 (set_joblist
                    (JobList.update job (Job.addProcess (Process.create pid c)) (joblist w1))
                    w1))
      as [gid [w' [Erun Hjob]]].
    + simpl in Hlen. lia.
    + exact Hnz'.
    + exact Hrest.
    + exists gid, w'. split; [exact Erun|].
      rewrite Hjob. cbn [joblist set_joblist]. rewrite Hjl. apply update_addProcess.
Qed.

Lemma NoDup_map_of_nat l : NoDup l -> NoDup (map Z.of_nat l).
Proof.
  induction 1 as [|x l Hx _ IH]; cbn [map]; constructor; [|exact IH].
  intro H. apply in_map_iff in H. destruct H as [y [Hy Hin]].
  apply Nat2Z.inj in Hy. subst y. contradiction.
Qed.

(** The id a new job gets is carried by no job of the list. *)
Lemma freshId_fresh jl : JobList.containsJob (JobList.freshId jl) jl = false.
Proof.
  unfold JobList.freshId.
  destruct (find _ _) as [k|] eqn:E.
  - apply find_some in E. destruct E as [_ E]. now apply negb_true_iff in E.
  - exfalso.
    assert (Hincl : incl (map Z.of_nat (seq 1 (S (List.length jl)))) (map getNum jl)).
    { intros x Hx. pose proof (find_none _ _ E x Hx) as H. apply negb_false_iff in H.
      unfold JobList.containsJob in H. apply existsb_exists in H.
      destruct H as [j [Hj Hnum]]. apply Z.eqb_eq in Hnum. subst x. now apply in_map. }
    apply NoDup_incl_length in Hincl; [|apply NoDup_map_of_nat, seq_NoDup].
    rewrite !length_map, length_seq in Hincl. lia.
Qed.

Lemma update_insertJob_fresh f j jl :
  JobList.containsJob (getNum j) jl = false ->
  getNum (f j) = getNum j ->
  JobList.update (getNum j) f (JobList.insertJob j jl) = JobList.insertJob (f j) jl.
Proof.
  intros Hfresh Hnum. unfold JobList.update.
  induction jl as [|k jl IH]; cbn [JobList.insertJob map].
  - now rewrite Z.eqb_refl.
  - cbn [JobList.containsJob existsb] in Hfresh. apply orb_false_iff in Hfresh.
    destruct Hfresh as [Hk Hrest]. rewrite Hnum.
    assert (Hmap : map (fun j0 => if getNum j0 =? getNum j then f j0 else j0) jl = jl).
    { clear IH. induction jl as [|x jl IHjl]; [reflexivity|]. cbn [map].
      cbn [JobList.containsJob existsb] in Hrest. apply orb_false_iff in Hrest.
      destruct Hrest as [Hx Hrest]. rewrite Hx. f_equal. now apply IHjl. }
    destruct (getNum j <? getNum k); cbn [map].
    + now rewrite Z.eqb_refl, Hk, Hmap.
    + rewrite Hk. f_equal. apply IH. exact Hrest.
Qed.

Lemma same_joblist_trans a b c : same_joblist a b -> same_joblist b c -> same_joblist a c.
Proof. unfold same_joblist. congruence. Qed.

Ltac keeps_joblist :=
  repeat
    first
      [ apply (respects_ret same_joblist (fun w => eq_refl))
      | apply (respects_halt same_joblist (fun w => eq_refl))
      | apply (respects_gets same_joblist (fun w => eq_refl))
      | apply (respects_bind same_joblist same_joblist_trans); [ | intro ]
      | apply (respects_forM same_joblist (fun w => eq_refl) same_joblist_trans); intro
      | apply (respects_repeatM same_joblist (fun w => eq_refl) same_joblist_trans)
      | apply respects_modify; intro; reflexivity
      | match goal with
        | |- respects _ (match ?x with _ => _ end) => destruct x
        end
      | progress unfold emit, throw, close, tcsetpgrp, transferTerminalControl, close_rd,
          close_wr, fds_rd, fds_wr ].

(** The job list after a background launch in the parent is the list before
    it with one job more: the new job has the smallest free id, is in the
    Background and holds one Running process per command, in pipeline
    order, under the pid fork returned for it, a failed fork's -1
    included.  This holds whatever the hand-back of the terminal answers. *)
Theorem createJob_background_registers stale_i p w pids more :
  background p = true ->
  commands p <> [] ->
  forks (kernel w) = pids ++ more ->
  List.length pids = List.length (commands p) ->
  Forall (fun pid => pid <> 0) pids ->
  joblist (snd (createJob stale_i p w))
  = JobList.insertJob
      (mkJob (JobList.freshId (joblist w)) kBackground (registered pids (commands p)))
      (joblist w).
Proof.
  intros Hbg Hne Hforks Hlen Hnz. unfold createJob. rewrite Hbg. cbn [negb].
  destruct (commands p) as [|c0 cs] eqn:Hc; [contradiction|].
  unfold bind at 1, gets at 1. unfold JobList.addJob. cbv zeta.
  unfold update_joblist at 1, bind at 1, modify at 1.
  do 3 launch_step.
  destruct Hframe as [J1 [_ [F1 _]]], Hframe0 as [J2 [_ [F2 _]]], Hframe1 as [J3 [_ [F3 _]]].
  destruct (fork_all_parent p (JobList.freshId (joblist w)) a a0 a1 (c0 :: cs)
              pids more 0%nat 0 w2 Hlen Hnz) as [gid [w3 [Erun Hjob]]].
  { rewrite F3, F2, F1. exact Hforks. }
  rewrite (bind_done _ _ _ _ _ Erun).
  match goal with
  | |- joblist (snd (?rest w3)) = _ =>
      assert (Hkeep : respects same_joblist rest) by keeps_joblist;
      rewrite (Hkeep w3)
  end.
  rewrite Hjob, J3, J2, J1. cbn [joblist set_joblist].
  apply (update_insertJob_fresh (addProcesses (registered pids (c0 :: cs)))
           (mkJob (JobList.freshId (joblist w)) kBackground [])).
  - apply freshId_fresh.
  - reflexivity.
Qed.

Lemma createJob_background_registers_witness :
  joblist (snd (createJob 0 three_stage (with_forks [100; -1; 102] world_bg_stopped)))
  = [stopped_pair;
     mkJob 2 kBackground [mkProcess 100 (mkCommand "a" []) kRunning;
                          mkProcess (-1) (mkCommand "b" []) kRunning;
                          mkProcess 102 (mkCommand "c" []) kRunning]].
Proof.
  apply (createJob_background_registers 0 three_stage
           (with_forks [100; -1; 102] world_bg_stopped) [100; -1; 102] []).
  - reflexivity.
  - discriminate.
  - reflexivity.
  - reflexivity.
  - repeat constructor; discriminate.
Defined.

(** ** Builtins that only signal *)

Lemma only_logged_refl w : only_logged w w.
Proof. exists []. symmetry. apply log_nil. Qed.

Lemma only_logged_trans a b c : only_logged a b -> only_logged b c -> only_logged a c.
Proof. intros [e1 ->] [e2 ->]. exists (e1 ++ e2). apply log_log. Qed.

Ltac only_logs :=
  repeat
    first
      [ apply (respects_ret only_logged only_logged_refl)
      | apply (respects_halt only_logged only_logged_refl)
      | apply (respects_gets only_logged only_logged_refl)
      | apply (respects_bind only_logged only_logged_trans); [ | intro ]
      | apply (respects_forM only_logged only_logged_refl only_logged_trans); intro
      | apply respects_modify; intro; eexists; reflexivity
      | match goal with
        | |- respects _ (match ?x with _ => _ end) => destruct x
        end
      | progress unfold emit, throw, kill, first_command ].

Lemma builtinBg_only_logs p : respects only_logged (builtinBg p).
Proof. unfold builtinBg. only_logs. Qed.

Lemma builtinSignals_only_logs p cmdName sig :
  respects only_logged (builtinSignals p cmdName sig).
Proof. unfold builtinSignals. only_logs. Qed.

(** bg, slay, halt, cont and jobs never edit the job list, the signal mask
    or the descriptors, whatever their arguments: all they do is send
    signals and print, so every change of a run state or of a scheduling
    class they bring about comes through the reaper. *)
Theorem signalling_builtins_only_log p c rest :
  commands p = c :: rest ->
  In (cmd_name c) signalling_builtins ->
  respects only_logged (handleBuiltin p).
Proof.
  intros Hc Hin w. unfold handleBuiltin, first_command. rewrite Hc.
  unfold bind at 1, ret at 1.
  assert (Hcase : forall body : M unit,
             respects only_logged body ->
             only_logged w (snd ((body ;; ret true) w))).
  { intros body Hbody. apply (respects_bind only_logged only_logged_trans);
      [exact Hbody | intros _; apply respects_ret, only_logged_refl]. }
  destruct Hin as [E | [E | [E | [E | [E | []]]]]]; rewrite <- E; cbn [find_index kSupportedBuiltins String.eqb Ascii.eqb Bool.eqb];
    apply Hcase.
  - apply builtinBg_only_logs.
  - apply builtinSignals_only_logs.
  - apply builtinSignals_only_logs.
  - apply builtinSignals_only_logs.
  - only_logs.
Qed.

Lemma signalling_builtins_only_log_witness :
  only_logged world_fg_pair (snd (handleBuiltin (line "halt" ["1"; "0"]) world_fg_pair)).
Proof.
  apply (signalling_builtins_only_log (line "halt" ["1"; "0"]) (mkCommand "halt" ["1"; "0"]) []).
  - reflexivity.
  - right; right; left; reflexivity.
Defined.
